(** * Gallery backend (app.py): a shallow embedding of the request handlers

    The Flask application of [app.py] is a set of request handlers over
    the per-client session (a dict), the MongoDB database (two
    collections, [users] and [photos]), the Cloudinary blob store and the
    folder of static files.  Each handler is embedded as a computation in a small
    state-and-exception monad: Python exceptions are values of [exn],
    mutations persist when an exception is raised, [try/except] is
    [try_except], and an exception that leaves a handler is turned by the
    framework into a 500 response.

    Python dicts are [gmap string _]; the collections are lists in
    insertion order; the values that the outside world decides for one
    request (the id generated by the driver, the clock, what Cloudinary
    answers, the bcrypt salt) are the fields of [Env]. *)

From Stdlib Require Import ZArith Ascii String.
From stdpp Require Import base gmap strings list fin_maps sorting.

Open Scope Z_scope.
Open Scope string_scope.

(** ** bson.objectid.ObjectId *)

Module Oid.

(** An ObjectId holds bytes, twelve of them when the driver generated
    it; it is kept here in the form [str] prints it, the lower-case
    hexadecimal digits of the bytes held. *)
Record ObjectId := mk { hex : string }.

#[export] Instance ObjectId_eq_dec : EqDecision ObjectId.
Proof. solve_decision. Defined.

Definition is_hex_digit (c : ascii) : bool :=
  let n := N_of_ascii c in
  ((48 <=? n) && (n <=? 57) || (97 <=? n) && (n <=? 102)
   || (65 <=? n) && (n <=? 70))%N.

Definition lower_digit (c : ascii) : ascii :=
  let n := N_of_ascii c in
  if ((65 <=? n) && (n <=? 70))%N then ascii_of_N (n + 32) else c.

Fixpoint all_hex (s : string) : bool :=
  match s with
  | EmptyString => true
  | String c s' => is_hex_digit c && all_hex s'
  end.

Fixpoint lower (s : string) : string :=
  match s with
  | EmptyString => EmptyString
  | String c s' => String (lower_digit c) (lower s')
  end.

(** ASCII white space: space, and tab to carriage return. *)
Definition is_space (c : ascii) : bool :=
  let n := N_of_ascii c in
  ((n =? 32) || (9 <=? n) && (n <=? 13))%N.

(** [bytes.fromhex(s)], the bytes written in hexadecimal: before each
    byte ASCII white space is skipped, and a byte is two hexadecimal
    digits next to each other; [None] stands for [ValueError]. *)
Fixpoint fromhex (s : string) : option string :=
  match s with
  | EmptyString => Some EmptyString
  | String c s' =>
      if is_space c then fromhex s'
      else
        match s' with
        | EmptyString => None
        | String c' s'' =>
            if is_hex_digit c && is_hex_digit c' then
              match fromhex s'' with
              | Some bytes =>
                  Some (String (lower_digit c) (String (lower_digit c') bytes))
              | None => None
              end
            else None
        end
  end.

(** [ObjectId(s)] for a [str]: the string must have 24 characters and
    [bytes.fromhex] must accept it; [None] stands for [InvalidId]. *)
Definition parse (s : string) : option ObjectId :=
  if (String.length s =? 24)%nat then
    match fromhex s with
    | Some bytes => Some (mk bytes)
    | None => None
    end
  else None.

(** The 24-character hexadecimal strings. *)
Definition is_hex24 (s : string) : bool :=
  (String.length s =? 24)%nat && all_hex s.

(** [str(oid)] *)
Definition str (o : ObjectId) : string := hex o.

End Oid.
Export Oid.

(** ** Documents, collections and the state a request runs in *)

(** Values held in a document or in a dict built by a handler. *)
Inductive value :=
| VStr (s : string)
| VOid (o : ObjectId)
| VDate (t : Z).

Record User := mkUser {
  u_id : ObjectId;
  u_username : string;
  u_password : string
}.

(** The schema written by [upload_photo], the only writer of [photos]. *)
Record Photo := mkPhoto {
  p_id : ObjectId;
  p_user_id : ObjectId;
  p_src : string;
  p_public_id : string;
  p_title : string;
  p_date : string;
  p_uploaded_at : Z
}.

#[export] Instance User_eq_dec : EqDecision User.
Proof. solve_decision. Defined.
#[export] Instance Photo_eq_dec : EqDecision Photo.
Proof. solve_decision. Defined.

Record Database := mkDb {
  users_collection : list User;
  photos_collection : list Photo
}.

(** [db] is [None] when the connection test at start-up failed. *)
Record State := mkState {
  session : gmap string string;
  db : option Database;
  cloudinary : gset string;
  static_folder : gmap string string
}.

(** What the outside world decides during one request. *)
Record Env := mkEnv {
  bcrypt_salt : string;
  new_object_id : ObjectId;
  cloud_upload_result : string + string * string;
  cloud_destroy_result : option string;
  now_date : string;
  utcnow : Z
}.

Record FileStorage := mkFile { filename : string; content : string }.

Inductive Request :=
| Register (username password : option string)
| Login (username password : option string)
| Logout
| GetStatus
| UploadPhoto (photo : option FileStorage)
| GetPhotos
| DeletePhoto (photo_id : string)
| Index
| ServeStatic (path : string).

(** ** Responses *)

Inductive jvalue :=
| JBool (b : bool)
| JStr (s : string)
| JDoc (d : gmap string value)
| JDocs (l : list (gmap string value)).

Inductive Payload :=
| Json (body : gmap string jvalue)
| FileContent (c : string)
| ErrorPage.

Record Response := mkResponse { status : Z; payload : Payload }.

Definition jsonify (body : gmap string jvalue) : Response :=
  mkResponse 200 (Json body).

(** [return jsonify(body), code] *)
Definition with_status (r : Response) (code : Z) : Response :=
  mkResponse code (payload r).

(** [jsonify({"success": ok, "message": msg})] *)
Definition message_body (ok : bool) (msg : string) : gmap string jvalue :=
  <["success" := JBool ok]> (<["message" := JStr msg]> ∅).

(** ** Exceptions and the handler monad *)

Inductive exn :=
| KeyError (key : string)
| InvalidId (s : string)
| TypeError (msg : string)
| ValueError (msg : string)
| CloudinaryError (msg : string)
| DuplicateKeyError (o : ObjectId).

Definition M (A : Type) : Type := State → (exn + A) * State.

#[export] Instance M_ret : MRet M := λ A a s, (inr a, s).
#[export] Instance M_bind : MBind M := λ A B k m s,
  match m s with
  | (inl e, s') => (inl e, s')
  | (inr a, s') => k a s'
  end.

Definition raise {A} (e : exn) : M A := λ s, (inl e, s).
(** A call into a library, which returns or raises. *)
Definition lift {A} (r : exn + A) : M A := λ s, (r, s).
Definition gets {A} (f : State → A) : M A := λ s, (inr (f s), s).
Definition modify (f : State → State) : M unit := λ s, (inr tt, f s).

(** [try: m  except Exception as e: h e] *)
Definition try_except {A} (m : M A) (h : exn → M A) : M A := λ s,
  match m s with
  | (inl e, s') => h e s'
  | r => r
  end.

Definition set_session (f : gmap string string → gmap string string) : M unit :=
  modify (λ s, mkState (f (session s)) (db s) (cloudinary s) (static_folder s)).
Definition set_db (d : Database) : M unit :=
  modify (λ s, mkState (session s) (Some d) (cloudinary s) (static_folder s)).
Definition set_cloudinary (f : gset string → gset string) : M unit :=
  modify (λ s, mkState (session s) (db s) (f (cloudinary s)) (static_folder s)).

(** [session[k]] *)
Definition session_get (k : string) : M string :=
  s ← gets session;
  match s !! k with
  | Some v => mret v
  | None => raise (KeyError k)
  end.

(** [ObjectId(s)] *)
Definition ObjectId_of (s : string) : M ObjectId :=
  match parse s with
  | Some o => mret o
  | None => raise (InvalidId s)
  end.

(** ** The collections (pymongo) *)

(** [users_collection.find_one({"username": username})]: the first
    document in natural order; a missing [username] matches no document,
    since every stored user has one. *)
Definition users_find_one (username : option string) (d : Database) : option User :=
  match username with
  | Some u => find (λ x, bool_decide (u_username x = u)) (users_collection d)
  | None => None
  end.

(** [photos_collection.find_one({"_id": pid, "user_id": uid})] *)
Definition photos_find_one (pid uid : ObjectId) (d : Database) : option Photo :=
  find (λ p, bool_decide (p_id p = pid) && bool_decide (p_user_id p = uid))
       (photos_collection d).

(** Most recent first: the order of [.sort("uploaded_at", -1)]. *)
Definition newer_first (p q : Photo) : Prop :=
  (p_uploaded_at q ≤ p_uploaded_at p)%Z.

#[export] Instance newer_first_dec : RelDecision newer_first.
Proof. intros p q. unfold newer_first. apply _. Defined.

(** [photos_collection.find({"user_id": uid}).sort("uploaded_at", -1)] *)
Definition photos_find_sorted (uid : ObjectId) (d : Database) : list Photo :=
  merge_sort newer_first
    (filter (λ p, p_user_id p = uid) (photos_collection d)).

(** [insert_one]: the [_id] index of a collection is unique. *)
Definition insert_one {A} (id : A → ObjectId) (doc : A) (coll : list A)
  : exn + list A :=
  if bool_decide (id doc ∈ id <$> coll)
  then inl (DuplicateKeyError (id doc))
  else inr (coll ++ [doc])%list.

(** [delete_one({"_id": o})] *)
Fixpoint delete_one (o : ObjectId) (coll : list Photo) : list Photo :=
  match coll with
  | [] => []
  | p :: coll' =>
      if bool_decide (p_id p = o) then coll' else p :: delete_one o coll'
  end.

(** The collection handles are [None] when [db] is. *)
Definition no_collection {A} : M A :=
  raise (TypeError "'NoneType' object has no attribute").

Definition users_insert_one (u : User) : M ObjectId :=
  d ← gets db;
  match d with
  | None => no_collection
  | Some d =>
      match insert_one u_id u (users_collection d) with
      | inl e => raise e
      | inr us => set_db (mkDb us (photos_collection d));; mret (u_id u)
      end
  end.

Definition photos_insert_one (p : Photo) : M ObjectId :=
  d ← gets db;
  match d with
  | None => no_collection
  | Some d =>
      match insert_one p_id p (photos_collection d) with
      | inl e => raise e
      | inr ps => set_db (mkDb (users_collection d) ps);; mret (p_id p)
      end
  end.

Definition photos_delete_one (o : ObjectId) : M unit :=
  d ← gets db;
  match d with
  | None => no_collection
  | Some d => set_db (mkDb (users_collection d) (delete_one o (photos_collection d)))
  end.

(** The dict a cursor yields for a stored photo. *)
Definition doc_of_photo (p : Photo) : gmap string value :=
  <["_id" := VOid (p_id p)]>
  (<["user_id" := VOid (p_user_id p)]>
  (<["src" := VStr (p_src p)]>
  (<["public_id" := VStr (p_public_id p)]>
  (<["title" := VStr (p_title p)]>
  (<["date" := VStr (p_date p)]>
  (<["uploaded_at" := VDate (p_uploaded_at p)]> ∅)))))).

(** ** The handlers of app.py *)

Section Handlers.

(** flask_bcrypt: [generate_password_hash] draws a salt;
    [check_password_hash pw_hash password].  Both return or raise:
    bcrypt refuses some passwords.  [repr] is Python's. *)
Variable generate_password_hash : string → string → exn + string.
Variable check_password_hash : string → string → exn + bool.
Variable repr : string → string.
Variable env : Env.

(** [str(e)] *)
Definition exn_str (e : exn) : string :=
  match e with
  | KeyError k => repr k
  | InvalidId s =>
      repr s +:+
      " is not a valid ObjectId, it must be a 12-byte input or a 24-character hex string"
  | TypeError m => m
  | ValueError m => m
  | CloudinaryError m => m
  | DuplicateKeyError o => "E11000 duplicate key error, _id: " +:+ str o
  end.

Definition unauthorized : Response :=
  with_status (jsonify (message_body false "Unauthorized. Please log in.")) 401.

Definition database_error : Response :=
  with_status (jsonify (message_body false "Database Error")) 500.

Definition login_required (f : M Response) : M Response :=
  s ← gets session;
  match s !! "user_id" with
  | None => mret unauthorized
  | Some _ => f
  end.

(** [not username or not password] holds for a missing field and for
    the empty string. *)
Definition register (username password : option string) : M Response :=
  d ← gets db;
  match d with
  | None => mret database_error
  | Some d =>
      match username, password with
      | Some u, Some pw =>
          if bool_decide (u = EmptyString) || bool_decide (pw = EmptyString) then
            mret (with_status (jsonify
              (message_body false "Username and password are required.")) 400)
          else
            match users_find_one username d with
            | Some _ =>
                mret (with_status (jsonify
                  (message_body false "Username already exists.")) 409)
            | None =>
                hashed_password ←
                  lift (generate_password_hash (bcrypt_salt env) pw);
                users_insert_one
                  (mkUser (new_object_id env) u hashed_password);;
                mret (jsonify
                  (message_body true "Registration successful! Login now."))
            end
      | _, _ =>
          mret (with_status (jsonify
            (message_body false "Username and password are required.")) 400)
      end
  end.

(** [bcrypt.check_password_hash(h, password)]: hashing [None] raises,
    and bcrypt may refuse a string. *)
Definition bcrypt_check (h : string) (password : option string) : M bool :=
  match password with
  | Some pw => lift (check_password_hash h pw)
  | None => raise (TypeError "Strings must be encoded before hashing")
  end.

Definition invalid_login : Response :=
  with_status (jsonify (message_body false "Invalid username or password.")) 401.

Definition login (username password : option string) : M Response :=
  d ← gets db;
  match d with
  | None => mret database_error
  | Some d =>
      match users_find_one username d with
      | Some user =>
          ok ← bcrypt_check (u_password user) password;
          if ok : bool then
            set_session (λ s, <["user_id" := str (u_id user)]> s);;
            set_session (λ s, <["username" := u_username user]> s);;
            mret (jsonify
              (<["username" := JStr (u_username user)]>
                 (message_body true "Login successful.")))
          else mret invalid_login
      | None => mret invalid_login
      end
  end.

Definition logout : M Response :=
  set_session (λ s, delete "user_id" s);;
  set_session (λ s, delete "username" s);;
  mret (jsonify (message_body true "Logout successful.")).

Definition get_status : M Response :=
  s ← gets session;
  match s !! "user_id" with
  | Some _ =>
      name ← session_get "username";
      mret (jsonify (<["isLoggedIn" := JBool true]>
                       (<["username" := JStr name]> ∅)))
  | None => mret (jsonify (<["isLoggedIn" := JBool false]> ∅))
  end.

(** [cloudinary.uploader.upload(photo_file, folder=folder_name)]: the
    public id of the stored asset lies under the folder. *)
Definition cloudinary_upload (f : FileStorage) (folder : string)
  : M (string * string) :=
  match cloud_upload_result env with
  | inl msg => raise (CloudinaryError msg)
  | inr (secure_url, name) =>
      let public_id := folder +:+ "/" +:+ name in
      set_cloudinary (λ c, c ∪ {[public_id]});;
      mret (secure_url, public_id)
  end.

(** [cloudinary.uploader.destroy(public_id)] *)
Definition cloudinary_destroy (public_id : string) : M unit :=
  match cloud_destroy_result env with
  | Some msg => raise (CloudinaryError msg)
  | None => set_cloudinary (λ c, c ∖ {[public_id]})
  end.

Definition upload_photo (photo : option FileStorage) : M Response :=
  d ← gets db;
  match d with
  | None => mret database_error
  | Some _ =>
      match photo with
      | None =>
          mret (with_status (jsonify
            (message_body false "No photo file provided.")) 400)
      | Some photo_file =>
          user_id ← session_get "user_id";
          if bool_decide (filename photo_file = EmptyString) then
            mret (with_status (jsonify
              (message_body false "No selected file.")) 400)
          else
            uploaded ← try_except
              (let folder_name := "cloudgallery_user_" +:+ user_id in
               session_get "username";;
               '(secure_url, public_id) ← cloudinary_upload photo_file folder_name;
               mret (inr (secure_url, public_id, filename photo_file)))
              (λ e,
               session_get "username";;
               mret (inl (with_status (jsonify (message_body false
                 ("Cloud Upload Failed: " +:+ exn_str e))) 500)));
            match uploaded with
            | inl failure => mret failure
            | inr (secure_url, public_id, filename) =>
                owner ← ObjectId_of user_id;
                let new_photo : gmap string value :=
                  <["user_id" := VOid owner]>
                  (<["src" := VStr secure_url]>
                  (<["public_id" := VStr public_id]>
                  (<["title" := VStr filename]>
                  (<["date" := VStr (now_date env)]>
                  (<["uploaded_at" := VDate (utcnow env)]> ∅))))) in
                inserted_id ← photos_insert_one
                  (mkPhoto (new_object_id env) owner secure_url public_id
                           filename (now_date env) (utcnow env));
                let new_photo := <["_id" := VStr (str inserted_id)]> new_photo in
                let new_photo := delete "uploaded_at" new_photo in
                let new_photo := delete "user_id" new_photo in
                let new_photo := delete "public_id" new_photo in
                mret (jsonify
                  (<["photo" := JDoc new_photo]>
                     (message_body true "Photo uploaded successfully.")))
            end
      end
  end.

(** The body of the loop over the cursor. *)
Definition photo_view (p : Photo) : gmap string value :=
  let photo := doc_of_photo p in
  let photo := <["_id" := VStr (str (p_id p))]> photo in
  let photo := delete "user_id" photo in
  let photo := delete "uploaded_at" photo in
  delete "public_id" photo.

Definition get_photos : M Response :=
  d ← gets db;
  match d with
  | None => mret database_error
  | Some d =>
      user_id ← session_get "user_id";
      owner ← ObjectId_of user_id;
      let photos_cursor := photos_find_sorted owner d in
      let photos_list := photo_view <$> photos_cursor in
      session_get "username";;
      mret (jsonify
        (<["success" := JBool true]> (<["photos" := JDocs photos_list]> ∅)))
  end.

Definition not_found : Response :=
  with_status (jsonify
    (message_body false "Photo not found or unauthorized to delete.")) 404.

Definition delete_photo (photo_id : string) : M Response :=
  d ← gets db;
  match d with
  | None => mret database_error
  | Some d =>
      user_id ← session_get "user_id";
      try_except
        (pid ← ObjectId_of photo_id;
         uid ← ObjectId_of user_id;
         match photos_find_one pid uid d with
         | None => mret not_found
         | Some photo_obj =>
             let public_id := p_public_id photo_obj in
             session_get "username";;
             cloudinary_destroy public_id;;
             photos_delete_one pid;;
             mret (jsonify (message_body true "Photo deleted successfully."))
         end)
        (λ e,
         session_get "username";;
         mret (with_status (jsonify (message_body false
           ("Deletion failed: " +:+ exn_str e))) 500))
  end.

(** [send_from_directory(app.static_folder, name)] *)
Definition send_from_directory (name : string) : M Response :=
  files ← gets static_folder;
  match files !! name with
  | Some c => mret (mkResponse 200 (FileContent c))
  | None => mret (mkResponse 404 ErrorPage)
  end.

Definition index : M Response := send_from_directory "index.html".
Definition serve_static (path : string) : M Response := send_from_directory path.

(** The routes, with the decorators each one carries. *)
Definition route (r : Request) : M Response :=
  match r with
  | Register u p => register u p
  | Login u p => login u p
  | Logout => login_required logout
  | GetStatus => get_status
  | UploadPhoto f => login_required (upload_photo f)
  | GetPhotos => login_required get_photos
  | DeletePhoto i => login_required (delete_photo i)
  | Index => index
  | ServeStatic p => serve_static p
  end.

(** The framework answers 500 when an exception leaves the handler. *)
Definition handle (r : Request) (s : State) : Response * State :=
  match route r s with
  | (inr resp, s') => (resp, s')
  | (inl _, s') => (mkResponse 500 ErrorPage, s')
  end.

End Handlers.

(** The spec's list of protected operations. *)
Definition spec_protected (r : Request) : bool :=
  match r with
  | Logout | UploadPhoto _ | GetPhotos | DeletePhoto _ => true
  | _ => false
  end.

(** ** Invariants and reachable states *)

(** A session never carries a user id without a user name. *)
Definition session_ok (sess : gmap string string) : Prop :=
  is_Some (sess !! "user_id") → is_Some (sess !! "username").

(** The [_id] index of the photo collection. *)
Definition unique_ids (d : Database) : Prop :=
  NoDup (p_id <$> photos_collection d).

Section Reachable.

Variable generate_password_hash : string → string → exn + string.
Variable check_password_hash : string → string → exn + bool.
Variable repr : string → string.

(** The states one client can find itself in: it starts with an empty
    session, sends requests, and between two of them other clients may
    change the stores. *)
Inductive reachable : State → Prop :=
| reachable_init d c f :
    reachable (mkState ∅ d c f)
| reachable_request env r s :
    reachable s →
    reachable (snd (handle generate_password_hash check_password_hash repr env r s))
| reachable_stores s d c :
    reachable s →
    reachable (mkState (session s) d c (static_folder s)).

End Reachable.

(** ** A concrete instance, for running the handlers *)

Definition toy_digest (salt pw : string) : string :=
  "$2b$" +:+ salt +:+ "$" +:+ String.rev pw.
Definition too_long : exn :=
  ValueError "password cannot be longer than 72 bytes, truncate manually if necessary (e.g. my_password[:72])".
Definition toy_hash (salt pw : string) : exn + string :=
  if (72 <? String.length pw)%nat then inl too_long
  else inr (toy_digest salt pw).
Definition toy_check (h pw : string) : exn + bool :=
  if (72 <? String.length pw)%nat then inl too_long
  else inr (bool_decide
              (String.rev pw = substring 9 (String.length h - 9) h)).

(** [repr] of a string of printable characters: single quotes, or
    double quotes when the string has a single quote and no double one;
    the quote used and the backslash are escaped. *)
Fixpoint has_char (c : ascii) (s : string) : bool :=
  match s with
  | EmptyString => false
  | String c' s' => bool_decide (c = c') || has_char c s'
  end.
Fixpoint escape (q : ascii) (s : string) : string :=
  match s with
  | EmptyString => EmptyString
  | String c s' =>
      if bool_decide (c = q) || bool_decide (c = ascii_of_N 92)
      then String (ascii_of_N 92) (String c (escape q s'))
      else String c (escape q s')
  end.
Definition toy_repr (s : string) : string :=
  let q := if has_char (ascii_of_N 39) s && negb (has_char (ascii_of_N 34) s)
           then ascii_of_N 34 else ascii_of_N 39 in
  String q (escape q s +:+ String q EmptyString).

Definition alice_id := Oid.mk "aaaaaaaaaaaaaaaaaaaaaaaa".
Definition bob_id := Oid.mk "bbbbbbbbbbbbbbbbbbbbbbbb".
Definition cat_id := Oid.mk "0123456789abcdef01234567".
Definition dog_id := Oid.mk "0123456789abcdef01234568".

Definition alice := mkUser alice_id "alice" (toy_digest "salt" "pw1").
Definition bob := mkUser bob_id "bob" (toy_digest "salt" "pw2").

Definition cat := mkPhoto cat_id alice_id "https://res.example/cat.png"
  "cloudgallery_user_aaaaaaaaaaaaaaaaaaaaaaaa/cat" "cat.png" "2024-01-01" 1000.
Definition dog := mkPhoto dog_id bob_id "https://res.example/dog.png"
  "cloudgallery_user_bbbbbbbbbbbbbbbbbbbbbbbb/dog" "dog.png" "2024-01-02" 2000.

Definition gallery : Database := mkDb [alice; bob] [cat; dog].
Definition blobs : gset string := {[p_public_id cat; p_public_id dog]}.

Definition anonymous : State := mkState ∅ (Some gallery) blobs ∅.
Definition as_alice : State :=
  mkState (<["username" := "alice"]> (<["user_id" := str alice_id]> ∅))
          (Some gallery) blobs ∅.
Definition as_bob : State :=
  mkState (<["username" := "bob"]> (<["user_id" := str bob_id]> ∅))
          (Some gallery) blobs ∅.

Definition fresh_id := Oid.mk "0123456789abcdef01234569".
Definition quiet : Env :=
  mkEnv "salt" fresh_id (inr ("https://res.example/new.png", "new")) None
        "2024-01-03" 3000.
Definition storage_down : Env :=
  mkEnv "salt" fresh_id (inl "connection timed out")
        (Some "connection timed out") "2024-01-03" 3000.

(** The requests of one client after another, each with its [Env];
    the statuses answered and the final state. *)
Fixpoint run_requests (gen : string → string → exn + string)
    (chk : string → string → exn + bool) (rp : string → string)
    (reqs : list (Env * Request)) (s : State)
  : list Z * State :=
  match reqs with
  | [] => ([], s)
  | (env, r) :: reqs' =>
      let '(resp, s') := handle gen chk rp env r s in
      let '(codes, s'') := run_requests gen chk rp reqs' s' in
      (status resp :: codes, s'')
  end.

Definition empty_gallery : State := mkState ∅ (Some (mkDb [] [])) ∅ ∅.
Definition first_id : Env :=
  mkEnv "salt" alice_id (inr ("https://res.example/cat.png", "cat")) None
        "2024-01-01" 1000.
Definition second_id : Env :=
  mkEnv "salt" cat_id (inr ("https://res.example/cat.png", "cat")) None
        "2024-01-01" 1000.

Definition ant_id := Oid.mk "0123456789abcdef0123456a".
Definition bee_id := Oid.mk "0123456789abcdef0123456b".
Definition ant := mkPhoto ant_id alice_id "https://res.example/ant.png"
  "cloudgallery_user_aaaaaaaaaaaaaaaaaaaaaaaa/ant" "ant.png" "2024-01-05" 5000.
Definition bee := mkPhoto bee_id alice_id "https://res.example/bee.png"
  "cloudgallery_user_aaaaaaaaaaaaaaaaaaaaaaaa/bee" "bee.png" "2024-01-03" 3000.

(** Alice's photos are stored oldest, newest, middle. *)
Definition album : Database := mkDb [alice; bob] [cat; dog; ant; bee].
Definition alice_album : State :=
  mkState (<["username" := "alice"]> (<["user_id" := str alice_id]> ∅))
          (Some album) blobs ∅.

(** 73 characters. *)
Definition long_password : string :=
  "0123456789012345678901234567890123456789012345678901234567890123456789012".

Definition double_quote : string := String (ascii_of_N 34) EmptyString.

(** 22 hexadecimal digits and two spaces. *)
Definition spaced_id : string := "0123456789abcdef012345  ".

(** ** Start-up: the module level of app.py *)

Definition critical_configuration : list string :=
  ["MONGO_URI"; "DB_NAME"; "SECRET_KEY"; "CLOUDINARY_CLOUD_NAME";
   "CLOUDINARY_API_KEY"; "CLOUDINARY_API_SECRET"].

(** [os.getenv(name)] *)
Definition getenv (environ : gmap string string) (name : string) : option string :=
  environ !! name.

(** The truth value of [None] and of the empty string is false. *)
Definition truthy (o : option string) : bool :=
  match o with
  | Some v => negb (bool_decide (v = EmptyString))
  | None => false
  end.

Inductive Startup :=
| EnvironmentError (msg : string)
| Serving (s : State).

(** [mongo] is what the connection block leaves in [db]: [None] when
    [server_info] raised.  A client starts with an empty session. *)
Definition startup (environ : gmap string string) (mongo : option Database)
    (cloud : gset string) (files : gmap string string) : Startup :=
  if forallb (λ name, truthy (getenv environ name)) critical_configuration
  then Serving (mkState ∅ mongo cloud files)
  else EnvironmentError "Critical environment variables missing.".

(** ** Views of the state, and the routes by what they touch *)

Definition users_of (s : State) : list User :=
  from_option users_collection [] (db s).
Definition photos_of (s : State) : list Photo :=
  from_option photos_collection [] (db s).

(** The routes whose handler starts with [if db is None]. *)
Definition uses_database (r : Request) : bool :=
  match r with
  | Register _ _ | Login _ _ | UploadPhoto _ | GetPhotos | DeletePhoto _ => true
  | _ => false
  end.

(** The routes registered for GET. *)
Definition is_get (r : Request) : bool :=
  match r with
  | GetStatus | GetPhotos | Index | ServeStatic _ => true
  | _ => false
  end.

(** The record [upload_photo] hands to [insert_one]. *)
Definition uploaded_photo (env : Env) (user_id : string) (owner : ObjectId)
    (f : FileStorage) (secure_url name : string) : Photo :=
  mkPhoto (new_object_id env) owner secure_url
          (("cloudgallery_user_" +:+ user_id) +:+ "/" +:+ name)
          (filename f) (now_date env) (utcnow env).

Definition with_db (s : State) (d : option Database) : State :=
  mkState (session s) d (cloudinary s) (static_folder s).

Definition offline : State := mkState ∅ None blobs ∅.
Definition offline_alice : State :=
  mkState (<["username" := "alice"]> (<["user_id" := str alice_id]> ∅))
          None blobs ∅.
Definition new_file : FileStorage := mkFile "new.png" "bytes".
Definition clash : Env :=
  mkEnv "salt" cat_id (inr ("https://res.example/new.png", "new")) None
        "2024-01-03" 3000.
Definition full_environ : gmap string string :=
  list_to_map ((λ name, (name, "value")) <$> critical_configuration).

(** ** Reasoning about handler runs *)

Ltac unfold_monad :=
  unfold session_get, ObjectId_of, set_session, set_db, set_cloudinary,
    no_collection;
  unfold mbind, M_bind, mret, M_ret, gets, raise, lift, modify, try_except;
  cbn -[lookup insert delete union difference parse message_body
        photos_find_sorted photos_find_one users_find_one insert_one
        delete_one String.append].

Ltac unfold_handlers :=
  unfold handle, route, login_required, register, login, logout, get_status,
    upload_photo, get_photos, delete_photo, index, serve_static,
    send_from_directory, bcrypt_check, cloudinary_upload, cloudinary_destroy,
    users_insert_one, photos_insert_one, photos_delete_one.

(** Rewrite with what is known of the state and of the outside world. *)
Ltac use_facts :=
  match goal with
  | H : db _ = _ |- _ => rewrite H
  | H : session _ !! _ = _ |- _ => rewrite H
  | H : parse _ = _ |- _ => rewrite H
  | H : users_find_one _ _ = _ |- _ => rewrite H
  | H : photos_find_one _ _ _ = _ |- _ => rewrite H
  | H : insert_one _ _ _ = _ |- _ => rewrite H
  | H : cloud_upload_result _ = _ |- _ => rewrite H
  | H : cloud_destroy_result _ = _ |- _ => rewrite H
  | H : bool_decide _ = _ |- _ => rewrite H
  end.

Ltac run := unfold_handlers; repeat (progress unfold_monad || use_facts).

(** Follow every path through a handler. *)
Ltac paths :=
  run; repeat (case_match; simplify_eq; repeat (progress unfold_monad || use_facts)).




(** A 24-character hexadecimal string is read as the id that prints as
    its lower-case form, and that form is read back as the same id. *)
Lemma hex_digit_facts c :
  is_hex_digit c = true →
  is_space c = false ∧ is_hex_digit (lower_digit c) = true
  ∧ lower_digit (lower_digit c) = lower_digit c.
Proof.
  destruct c as [[] [] [] [] [] [] [] []]; vm_compute; intros;
    by try repeat split.
Qed.

Lemma fromhex_hex n s :
  String.length s = (2 * n)%nat → all_hex s = true →
  fromhex s = Some (lower s) ∧ all_hex (lower s) = true
  ∧ String.length (lower s) = String.length s.
Proof.
  revert s. induction n as [|n IH]; intros s Hlen Hhex.
  - by destruct s.
  - destruct s as [|c [|c' s'']]; try (cbn in Hlen; lia).
    cbn [all_hex] in Hhex.
    apply andb_prop in Hhex as [Hc [Hc' Hs]%andb_prop].
    destruct (hex_digit_facts c Hc) as (Hsp & Hl & _).
    destruct (hex_digit_facts c' Hc') as (_ & Hl' & _).
    destruct (IH s'') as (IH1 & IH2 & IH3); [cbn in Hlen; lia|done|].
    cbn [fromhex lower all_hex String.length].
    by rewrite Hsp, Hc, Hc', IH1, Hl, Hl', IH2, IH3.
Qed.

Lemma parse_hex24 s : is_hex24 s = true → parse s = Some (mk (lower s)).
Proof.
  unfold is_hex24, parse. intros [Hlen Hhex]%andb_prop. rewrite Hlen.
  apply Nat.eqb_eq in Hlen.
  by destruct (fromhex_hex 12 s Hlen Hhex) as (-> & _).
Qed.

Lemma parse_str_hex24 s o :
  is_hex24 s = true → parse s = Some o → parse (str o) = Some o.
Proof.
  intros Hs. rewrite (parse_hex24 s Hs). intros [= <-]. cbn [str hex].
  unfold is_hex24 in Hs. apply andb_prop in Hs as [Hlen Hhex].
  apply Nat.eqb_eq in Hlen.
  destruct (fromhex_hex 12 s Hlen Hhex) as (_ & Hhex' & Hlen').
  rewrite parse_hex24; unfold is_hex24.
  - f_equal. f_equal.
    assert (∀ t, all_hex t = true → lower (lower t) = lower t) as Hidem.
    { induction t as [|c t IHt]; [done|]. cbn [all_hex lower].
      intros [Hc Ht]%andb_prop.
      destruct (hex_digit_facts c Hc) as (_ & _ & ->). by rewrite IHt. }
    by apply Hidem.
  - rewrite Hlen', Hlen. by rewrite Hhex'.
Qed.

Lemma users_find_one_absent d username :
  (∀ x, x ∈ users_collection d → username ≠ Some (u_username x)) →
  users_find_one username d = None.
Proof.
  destruct username as [u|]; [|done]. unfold users_find_one.
  induction (users_collection d) as [|x l IH]; intros Habs; [done|].
  cbn [find]. rewrite bool_decide_eq_false_2.
  - apply IH. intros y Hy. apply Habs. by right.
  - intros Heq. apply (Habs x); [by left|by rewrite Heq].
Qed.


Lemma photos_find_one_present d p :
  p ∈ photos_collection d →
  is_Some (photos_find_one (p_id p) (p_user_id p) d).
Proof.
  unfold photos_find_one. intros Hp.
  induction Hp as [p l|p q l _ IH]; cbn [find].
  - rewrite !bool_decide_eq_true_2 by done. by eexists.
  - destruct (_ && _); [by eexists|done].
Qed.

Lemma unique_ids_inj d p q :
  unique_ids d → p ∈ photos_collection d → q ∈ photos_collection d →
  p_id p = p_id q → p = q.
Proof.
  unfold unique_ids. induction (photos_collection d) as [|x l IH];
    intros Hnd Hp Hq Heq; [by apply elem_of_nil in Hp|].
  rewrite fmap_cons in Hnd. apply NoDup_cons in Hnd as [Hx Hnd].
  apply elem_of_cons in Hp as [->|Hp], Hq as [->|Hq]; [done|..|by apply IH].
  - destruct Hx. rewrite Heq. by apply list_elem_of_fmap_2.
  - destruct Hx. rewrite <- Heq. by apply list_elem_of_fmap_2.
Qed.

Lemma photos_find_one_found d pid uid p :
  photos_find_one pid uid d = Some p →
  p ∈ photos_collection d ∧ p_id p = pid ∧ p_user_id p = uid.
Proof.
  unfold photos_find_one. intros H. apply find_some in H as [Hin Hb].
  apply andb_prop in Hb as [H1 H2].
  apply bool_decide_eq_true_1 in H1, H2. by rewrite list_elem_of_In.
Qed.

Lemma photos_find_one_foreign d p uid :
  unique_ids d → p ∈ photos_collection d → p_user_id p ≠ uid →
  photos_find_one (p_id p) uid d = None.
Proof.
  intros Hnd Hp Hne.
  destruct (photos_find_one (p_id p) uid d) as [q|] eqn:Hq; [|done].
  apply photos_find_one_found in Hq as (Hin & Hid & Huid).
  by rewrite (unique_ids_inj d q p Hnd Hin Hp Hid) in Huid.
Qed.

Lemma elem_of_photos_find_sorted d uid q :
  q ∈ photos_find_sorted uid d ↔ q ∈ photos_collection d ∧ p_user_id q = uid.
Proof.
  unfold photos_find_sorted. rewrite merge_sort_Permutation.
  rewrite list_elem_of_filter. tauto.
Qed.

Lemma photo_view_id p : photo_view p !! "_id" = Some (VStr (str (p_id p))).
Proof. unfold photo_view, doc_of_photo. by simplify_map_eq. Qed.

Lemma str_inj o1 o2 : str o1 = str o2 → o1 = o2.
Proof. destruct o1, o2. cbn. by intros ->. Qed.

#[export] Instance newer_first_total : Total newer_first.
Proof. intros p q. unfold newer_first. lia. Qed.

#[export] Instance newer_first_trans : Transitive newer_first.
Proof. intros p q r. unfold newer_first. lia. Qed.

Lemma photo_view_hides k p :
  k ∈ ["user_id"; "public_id"; "uploaded_at"] → photo_view p !! k = None.
Proof.
  intros Hk. unfold photo_view, doc_of_photo.
  repeat (apply elem_of_cons in Hk as [->|Hk]; [by simplify_map_eq|]).
  by apply elem_of_nil in Hk.
Qed.

Lemma insert_one_unique {A} (id : A → ObjectId) doc coll coll' :
  NoDup (id <$> coll) → insert_one id doc coll = inr coll' →
  coll' = (coll ++ [doc])%list ∧ NoDup (id <$> coll').
Proof.
  unfold insert_one. intros Hnd. case_bool_decide as Hin; [done|].
  intros [= <-]. split; [done|].
  rewrite fmap_app. apply NoDup_app. repeat split; [done| |apply NoDup_singleton].
  intros x Hx Hx'. apply list_elem_of_singleton in Hx'. by subst.
Qed.

Lemma delete_one_sublist o coll : sublist (delete_one o coll) coll.
Proof.
  induction coll as [|p l IH]; cbn [delete_one]; [done|].
  case_bool_decide; [by apply sublist_cons|by apply sublist_skip].
Qed.

Lemma delete_one_unique o coll :
  NoDup (p_id <$> coll) → NoDup (p_id <$> delete_one o coll).
Proof.
  intros Hnd. eapply sublist_NoDup; [exact Hnd|apply fmap_sublist, delete_one_sublist].
Qed.

Section Properties.

Variable generate_password_hash : string → string → exn + string.
Variable check_password_hash : string → string → exn + bool.
Variable repr : string → string.

Local Abbreviation handle := (handle generate_password_hash check_password_hash repr).


(** The session changes only in login and logout. *)
Lemma handle_session env r s :
  match r with
  | Login _ _ | Logout => True
  | _ => session (snd (handle env r s)) = session s
  end.
Proof. destruct r; try done; by paths. Qed.

Lemma handle_session_ok env r s :
  session_ok (session s) → session_ok (session (snd (handle env r s))).
Proof.
  intros Hok. pose proof (handle_session env r s) as Hs.
  destruct r; try (by rewrite Hs).
  - paths; try done.
    intros _. by simplify_map_eq.
  - paths; try done.
    intros [x Hx]. by simplify_map_eq.
Qed.

Lemma reachable_session_ok s :
  reachable generate_password_hash check_password_hash repr s →
  session_ok (session s).
Proof.
  induction 1 as [d c f|env r s _ IH|s d c _ IH]; cbn [session].
  - intros [x Hx]. by simplify_map_eq.
  - by apply handle_session_ok.
  - done.
Qed.

(** C9: in every state a client can reach, status answers 200 and leaves
    the state as it was; the body is [{isLoggedIn: true, username}] with
    the session's user name when the session carries a user id, and
    [{isLoggedIn: false}] otherwise. *)
Theorem get_status_pure_read env s :
  reachable generate_password_hash check_password_hash repr s →
  ∃ body,
    handle env GetStatus s = (mkResponse 200 (Json body), s)
    ∧ match session s !! "user_id" with
      | Some _ =>
          ∃ name, session s !! "username" = Some name
                  ∧ body = <["isLoggedIn" := JBool true]>
                             (<["username" := JStr name]> ∅)
      | None => body = <["isLoggedIn" := JBool false]> ∅
      end.
Proof.
  intros Hr. apply reachable_session_ok in Hr.
  destruct (session s !! "user_id") as [uid|] eqn:Hu.
  - destruct Hr as [name Hn]; [by rewrite Hu|].
    eexists. split; [by run|]. by exists name.
  - eexists. split; [by run|]. done.
Qed.

(** The two rejections the handler tests for: a user name no stored
    user has, and a password the hash check returns false on. *)
Lemma login_rejections_answer_401 env s d username password :
  db s = Some d →
  (∀ x, x ∈ users_collection d → username ≠ Some (u_username x))
  ∨ (∃ user pw, users_find_one username d = Some user
                ∧ password = Some pw
                ∧ check_password_hash (u_password user) pw = inr false) →
  handle env (Login username password) s
  = (mkResponse 401
       (Json (message_body false "Invalid username or password.")), s).
Proof.
  intros Hdb [Habs|(user & pw & Hfind & -> & Hcheck)].
  - apply users_find_one_absent in Habs. by run.
  - run. by rewrite Hcheck.
Qed.

(** C3: the failure causes of login are not indistinguishable.  With the
    credential store connected, a login request without a password
    answers 401 "Invalid username or password." when no stored user has
    the user name, but the framework's 500 when one has: the hash check
    raises on the missing password and the handler does not catch it.
    The same 500 is answered for an existing user whenever the hash
    check raises on the password string.  The state is unchanged in all
    cases. *)
Theorem login_missing_password_reveals_user env s d username :
  db s = Some d →
  handle env (Login username None) s
  = (match users_find_one username d with
     | Some _ => mkResponse 500 ErrorPage
     | None => mkResponse 401
                 (Json (message_body false "Invalid username or password."))
     end, s)
  ∧ ∀ user pw e,
      users_find_one username d = Some user →
      check_password_hash (u_password user) pw = inl e →
      handle env (Login username (Some pw)) s = (mkResponse 500 ErrorPage, s).
Proof.
  intros Hdb. split.
  - destruct (users_find_one username d) eqn:Hfind; by run.
  - intros user pw e Hfind Hcheck. run. by rewrite Hcheck.
Qed.


(** C4: when the requester owns the photo and Cloudinary's deletion
    raises, delete answers 500 with the message of the failure and the
    state, the photo record included, is as it was. *)
Theorem delete_storage_failure_keeps_record
    env s d user_id name photo_id uid photo msg :
  db s = Some d →
  session s !! "user_id" = Some user_id →
  session s !! "username" = Some name →
  parse user_id = Some uid →
  parse photo_id = Some (p_id photo) →
  photo ∈ photos_collection d →
  p_user_id photo = uid →
  cloud_destroy_result env = Some msg →
  handle env (DeletePhoto photo_id) s
  = (mkResponse 500 (Json (message_body false ("Deletion failed: " +:+ msg))),
     s).
Proof.
  intros Hdb Hu Hn Huid Hpid Hin Hown Hfail.
  destruct (photos_find_one_present d photo Hin) as [q Hq].
  rewrite Hown in Hq. by run.
Qed.

(** C10 (amended): for a logged-in requester and a photo identifier
    that the ObjectId constructor rejects (a string that does not have
    24 characters, or that [bytes.fromhex] does not accept), delete
    answers 500, not the 404 response, and leaves the state as it was;
    with the database connected the body carries the message of the
    parse failure, in which the identifier is written by [repr].  Such
    an identifier is never a 24-character hexadecimal string. *)
Theorem delete_malformed_id env s user_id photo_id :
  session s !! "user_id" = Some user_id →
  parse photo_id = None →
  is_hex24 photo_id = false
  ∧ ∃ resp,
      handle env (DeletePhoto photo_id) s = (resp, s)
      ∧ status resp = 500
      ∧ resp ≠ not_found
      ∧ (∀ d name, db s = Some d → session s !! "username" = Some name →
         resp = mkResponse 500 (Json (message_body false
                  ("Deletion failed: " +:+
                   (repr photo_id +:+
                    " is not a valid ObjectId, it must be a 12-byte input or a 24-character hex string"))))).
Proof.
  intros Hu Hparse. split.
  - destruct (is_hex24 photo_id) eqn:Hhex; [|done].
    apply parse_hex24 in Hhex. congruence.
  - destruct (db s) as [d|] eqn:Hdb;
      [destruct (session s !! "username") as [name|] eqn:Hn|];
      eexists; (split; [by run|]); repeat split; try done.
Qed.

(** C1: let the photo [p] be stored with owner [A] and let the requester
    be logged in as [B], different from [A], the [_id] index being
    unique.  Then no element of B's list result carries the identifier
    of [p], and B's delete against that identifier answers the 404
    response and leaves the whole state, the photos and the blobs
    included, as it was, whatever Cloudinary would have answered. *)
Theorem photos_isolated_between_users env s d user_id name A B p :
  db s = Some d →
  session s !! "user_id" = Some user_id →
  session s !! "username" = Some name →
  parse user_id = Some B →
  unique_ids d →
  p ∈ photos_collection d →
  p_user_id p = A →
  A ≠ B →
  (∃ views,
     handle env GetPhotos s
     = (jsonify (<["success" := JBool true]>
                   (<["photos" := JDocs views]> ∅)), s)
     ∧ ∀ v, v ∈ views → v !! "_id" ≠ Some (VStr (str (p_id p))))
  ∧ (∀ photo_id, parse photo_id = Some (p_id p) →
     handle env (DeletePhoto photo_id) s = (not_found, s)).
Proof.
  intros Hdb Hu Hn HB Hnd Hp HA Hne. split.
  - eexists. split; [by run|].
    intros v Hv Hid.
    apply list_elem_of_fmap in Hv as (q & -> & Hq).
    apply elem_of_photos_find_sorted in Hq as [Hq HqB].
    rewrite photo_view_id in Hid. injection Hid as Hid. apply str_inj in Hid.
    rewrite (unique_ids_inj d q p Hnd Hq Hp Hid) in HqB. congruence.
  - intros photo_id Hpid.
    assert (photos_find_one (p_id p) B d = None) as Hnone
      by (apply photos_find_one_foreign; congruence).
    by run.
Qed.

(** The [_id] index of the photos stays unique across every request. *)
Lemma handle_unique_ids env r s d d' :
  db s = Some d → unique_ids d →
  db (snd (handle env r s)) = Some d' → unique_ids d'.
Proof.
  unfold unique_ids. intros Hdb Hnd.
  destruct r; paths; cbn [db snd]; intros; cbn [db] in *; simplify_eq;
    cbn [photos_collection]; try done.
  - match goal with
    | H : insert_one p_id _ _ = inr _ |- _ =>
        by apply (insert_one_unique p_id _ _ _ Hnd) in H as [_ ?]
    end.
  - by apply delete_one_unique.
Qed.

(** Every upload that does not answer 200 leaves the database as it was. *)
Lemma upload_failure_db env s photo :
  status (fst (handle env (UploadPhoto photo) s)) ≠ 200 →
  db (snd (handle env (UploadPhoto photo) s)) = db s.
Proof.
  paths; cbn [fst snd status db]; intros; cbn [db] in *; by simplify_eq.
Qed.

(** C5: an upload that does not answer 200 creates no photo record: the
    database is as it was.  For a logged-in requester and a connected
    database, an upload with no attached file answers 400 "No photo file
    provided.", one with an empty file name answers 400 "No selected
    file.", and one whose Cloudinary upload fails answers 500 with
    "Cloud Upload Failed: " and the message of the failure; each of the
    three leaves the whole state as it was. *)
Theorem upload_failure_creates_no_record env s photo :
  (status (fst (handle env (UploadPhoto photo) s)) ≠ 200 →
   db (snd (handle env (UploadPhoto photo) s)) = db s)
  ∧ (∀ d user_id, db s = Some d → session s !! "user_id" = Some user_id →
     (photo = None →
      handle env (UploadPhoto photo) s
      = (mkResponse 400
           (Json (message_body false "No photo file provided.")), s))
     ∧ (∀ f, photo = Some f → filename f = EmptyString →
        handle env (UploadPhoto photo) s
        = (mkResponse 400
             (Json (message_body false "No selected file.")), s))
     ∧ (∀ f name msg, photo = Some f → filename f ≠ EmptyString →
        session s !! "username" = Some name →
        cloud_upload_result env = inl msg →
        handle env (UploadPhoto photo) s
        = (mkResponse 500
             (Json (message_body false ("Cloud Upload Failed: " +:+ msg))),
           s))).
Proof.
  split; [apply upload_failure_db|].
  intros d user_id Hdb Hu. split; [|split].
  - intros ->. by run.
  - intros f -> Hf.
    assert (bool_decide (filename f = EmptyString) = true) as Hf'
      by by apply bool_decide_eq_true_2.
    by run.
  - intros f name msg -> Hf Hn Hup.
    assert (bool_decide (filename f = EmptyString) = false) as Hf'
      by by apply bool_decide_eq_false_2.
    by run.
Qed.

Lemma photo_view_fields p :
  photo_view p
  = <["_id" := VStr (str (p_id p))]>
      (<["src" := VStr (p_src p)]>
      (<["title" := VStr (p_title p)]>
      (<["date" := VStr (p_date p)]> ∅))).
Proof.
  unfold photo_view, doc_of_photo. apply map_eq. intros k.
  destruct (decide (k = "public_id")) as [->|]; [by simplify_map_eq|].
  destruct (decide (k = "user_id")) as [->|]; [by simplify_map_eq|].
  destruct (decide (k = "uploaded_at")) as [->|]; [by simplify_map_eq|].
  destruct (decide (k = "_id")) as [->|]; [by simplify_map_eq|].
  destruct (decide (k = "src")) as [->|]; [by simplify_map_eq|].
  destruct (decide (k = "title")) as [->|]; [by simplify_map_eq|].
  destruct (decide (k = "date")) as [->|]; [by simplify_map_eq|].
  by simplify_map_eq.
Qed.

(** C6: for a requester logged in as [uid], list answers 200 and the
    state is as it was.  The photos of the body are, in order, the
    documents [{_id, src, title, date}] of a list of records, the
    [_id] printed as a string; that list is a permutation of the stored
    records owned by [uid], every record in it is at least as recent as
    all the records after it, and it is the empty list when [uid] owns
    none. *)
Theorem get_photos_exact_newest_first env s d user_id name uid :
  db s = Some d →
  session s !! "user_id" = Some user_id →
  session s !! "username" = Some name →
  parse user_id = Some uid →
  ∃ l,
    handle env GetPhotos s
    = (mkResponse 200
         (Json (<["success" := JBool true]>
                  (<["photos" :=
                       JDocs ((λ p, <["_id" := VStr (str (p_id p))]>
                                      (<["src" := VStr (p_src p)]>
                                      (<["title" := VStr (p_title p)]>
                                      (<["date" := VStr (p_date p)]> ∅))))
                              <$> l)]> ∅))), s)
    ∧ l ≡ₚ filter (λ p, p_user_id p = uid) (photos_collection d)
    ∧ StronglySorted newer_first l
    ∧ ((∀ p, p ∈ photos_collection d → p_user_id p ≠ uid) → l = []).
Proof.
  intros Hdb Hu Hn Huid. exists (photos_find_sorted uid d).
  split.
  - run. unfold jsonify.
    by rewrite (list_fmap_ext photo_view _ _ (λ _ p _, photo_view_fields p)).
  - unfold photos_find_sorted. repeat split.
    + apply merge_sort_Permutation.
    + apply StronglySorted_merge_sort; apply _.
    + intros Hnone. apply Permutation_nil_r.
      rewrite merge_sort_Permutation.
      induction (photos_collection d) as [|p l IH]; [done|].
      rewrite filter_cons_False by (apply Hnone; by left).
      apply IH. intros q Hq. apply Hnone. by right.
Qed.

(** C8: the [photo] of every upload response and every element of the
    [photos] of every list response has none of the keys [user_id],
    [public_id] and [uploaded_at], and the body itself has none either. *)
Theorem views_omit_internal_fields env s k :
  k ∈ ["user_id"; "public_id"; "uploaded_at"] →
  (∀ photo body, payload (fst (handle env (UploadPhoto photo) s)) = Json body →
     body !! k = None
     ∧ ∀ doc, body !! "photo" = Some (JDoc doc) → doc !! k = None)
  ∧ (∀ body, payload (fst (handle env GetPhotos s)) = Json body →
     body !! k = None
     ∧ ∀ docs doc, body !! "photos" = Some (JDocs docs) → doc ∈ docs →
                   doc !! k = None).
Proof.
  intros Hk.
  assert (k = "user_id" ∨ k = "public_id" ∨ k = "uploaded_at") as Hk'.
  { repeat (apply elem_of_cons in Hk as [->|Hk]; [tauto|]).
    by apply elem_of_nil in Hk. }
  split.
  - intros photo body.
    paths; cbn [fst payload]; intros; simplify_eq;
      (split; [|intros doc Hdoc]);
      unfold message_body in *;
      destruct Hk' as [->|[->| ->]]; by simplify_map_eq.
  - intros body.
    paths; cbn [fst payload]; intros; simplify_eq;
      (split; [|intros docs doc Hdocs Hdoc]);
      unfold message_body in *;
      try (destruct Hk' as [->|[->| ->]]; by simplify_map_eq).
    simplify_map_eq.
    apply list_elem_of_fmap in Hdoc as (q & -> & _).
    by apply photo_view_hides.
Qed.

End Properties.

(** ** The theorems at concrete inputs *)


Lemma get_status_pure_read_witness :
  ∃ body,
    handle toy_hash toy_check toy_repr quiet GetStatus
      (snd (handle toy_hash toy_check toy_repr quiet
              (Login (Some "alice") (Some "pw1")) anonymous))
    = (mkResponse 200 (Json body),
       snd (handle toy_hash toy_check toy_repr quiet
              (Login (Some "alice") (Some "pw1")) anonymous))
    ∧ ∃ name, name = "alice"
              ∧ body = <["isLoggedIn" := JBool true]>
                         (<["username" := JStr name]> ∅).
Proof.
  destruct (get_status_pure_read toy_hash toy_check toy_repr quiet
              (snd (handle toy_hash toy_check toy_repr quiet
                      (Login (Some "alice") (Some "pw1")) anonymous)))
    as [body [Hrun Hbody]].
  - apply reachable_request. apply reachable_init.
  - exists body. split; [exact Hrun|].
    destruct Hbody as [name [Hname Hb]].
    exists name. split; [|exact Hb].
    vm_compute in Hname. congruence.
Defined.

Lemma unique_ids_gallery : unique_ids gallery.
Proof.
  unfold unique_ids. cbn. apply NoDup_cons. split.
  - intros H. apply list_elem_of_singleton in H. discriminate H.
  - apply NoDup_singleton.
Defined.

Lemma photos_isolated_between_users_witness :
  (∃ views,
     handle toy_hash toy_check toy_repr quiet GetPhotos as_bob
     = (jsonify (<["success" := JBool true]>
                   (<["photos" := JDocs views]> ∅)), as_bob)
     ∧ ∀ v, v ∈ views → v !! "_id" ≠ Some (VStr (str (p_id cat))))
  ∧ (∀ photo_id, parse photo_id = Some (p_id cat) →
     handle toy_hash toy_check toy_repr quiet (DeletePhoto photo_id) as_bob
     = (not_found, as_bob)).
Proof.
  apply (photos_isolated_between_users toy_hash toy_check toy_repr quiet as_bob gallery
           (str bob_id) "bob" alice_id bob_id cat).
  - reflexivity.
  - reflexivity.
  - reflexivity.
  - reflexivity.
  - exact unique_ids_gallery.
  - left.
  - reflexivity.
  - discriminate.
Defined.

Lemma login_missing_password_reveals_user_witness :
  handle toy_hash toy_check toy_repr quiet (Login (Some "alice") None) anonymous
  = (mkResponse 500 ErrorPage, anonymous)
  ∧ handle toy_hash toy_check toy_repr quiet (Login (Some "mallory") None) anonymous
    = (mkResponse 401
         (Json (message_body false "Invalid username or password.")),
       anonymous)
  ∧ handle toy_hash toy_check toy_repr quiet
      (Login (Some "alice") (Some long_password)) anonymous
    = (mkResponse 500 ErrorPage, anonymous).
Proof.
  split; [|split].
  - exact (proj1 (login_missing_password_reveals_user toy_hash toy_check
                    toy_repr quiet anonymous gallery (Some "alice") eq_refl)).
  - exact (proj1 (login_missing_password_reveals_user toy_hash toy_check
                    toy_repr quiet anonymous gallery (Some "mallory") eq_refl)).
  - exact (proj2 (login_missing_password_reveals_user toy_hash toy_check
                    toy_repr quiet anonymous gallery (Some "alice") eq_refl)
             alice long_password too_long eq_refl eq_refl).
Defined.

Lemma delete_storage_failure_keeps_record_witness :
  handle toy_hash toy_check toy_repr storage_down
         (DeletePhoto "0123456789ABCDEF01234567") as_alice
  = (mkResponse 500
       (Json (message_body false ("Deletion failed: " +:+ "connection timed out"))),
     as_alice).
Proof.
  apply (delete_storage_failure_keeps_record toy_hash toy_check toy_repr storage_down
           as_alice gallery (str alice_id) "alice" "0123456789ABCDEF01234567"
           alice_id cat "connection timed out").
  - reflexivity.
  - reflexivity.
  - reflexivity.
  - reflexivity.
  - reflexivity.
  - left.
  - reflexivity.
  - reflexivity.
Defined.

Lemma upload_failure_creates_no_record_witness :
  db (snd (handle toy_hash toy_check toy_repr storage_down
             (UploadPhoto (Some (mkFile "new.png" "bytes"))) as_alice))
  = db as_alice
  ∧ handle toy_hash toy_check toy_repr storage_down (UploadPhoto None) as_alice
    = (mkResponse 400 (Json (message_body false "No photo file provided.")),
       as_alice)
  ∧ handle toy_hash toy_check toy_repr storage_down
      (UploadPhoto (Some (mkFile EmptyString "bytes"))) as_alice
    = (mkResponse 400 (Json (message_body false "No selected file.")),
       as_alice)
  ∧ handle toy_hash toy_check toy_repr storage_down
      (UploadPhoto (Some (mkFile "new.png" "bytes"))) as_alice
    = (mkResponse 500
         (Json (message_body false
                  ("Cloud Upload Failed: " +:+ "connection timed out"))),
       as_alice).
Proof.
  split; [|split; [|split]].
  - apply (proj1 (upload_failure_creates_no_record toy_hash toy_check toy_repr
                    storage_down as_alice
                    (Some (mkFile "new.png" "bytes")))).
    vm_compute. discriminate.
  - destruct (proj2 (upload_failure_creates_no_record toy_hash toy_check
                       toy_repr storage_down as_alice None)
                gallery (str alice_id) eq_refl eq_refl) as (H & _ & _).
    apply H. reflexivity.
  - destruct (proj2 (upload_failure_creates_no_record toy_hash toy_check
                       toy_repr storage_down as_alice
                       (Some (mkFile EmptyString "bytes")))
                gallery (str alice_id) eq_refl eq_refl) as (_ & H & _).
    apply (H (mkFile EmptyString "bytes")); reflexivity.
  - destruct (proj2 (upload_failure_creates_no_record toy_hash toy_check
                       toy_repr storage_down as_alice
                       (Some (mkFile "new.png" "bytes")))
                gallery (str alice_id) eq_refl eq_refl) as (_ & _ & H).
    apply (H (mkFile "new.png" "bytes") "alice" "connection timed out").
    + reflexivity.
    + discriminate.
    + reflexivity.
    + reflexivity.
Defined.

Lemma get_photos_exact_newest_first_witness :
  (∃ l,
     handle toy_hash toy_check toy_repr quiet GetPhotos alice_album
     = (mkResponse 200
          (Json (<["success" := JBool true]>
                   (<["photos" :=
                        JDocs ((λ p, <["_id" := VStr (str (p_id p))]>
                                       (<["src" := VStr (p_src p)]>
                                       (<["title" := VStr (p_title p)]>
                                       (<["date" := VStr (p_date p)]> ∅))))
                               <$> l)]> ∅))), alice_album)
     ∧ l ≡ₚ [cat; ant; bee]
     ∧ StronglySorted newer_first l)
  ∧ photos_find_sorted alice_id album = [ant; bee; cat].
Proof.
  split; [|reflexivity].
  destruct (get_photos_exact_newest_first toy_hash toy_check toy_repr quiet
              alice_album album (str alice_id) "alice" alice_id)
    as (l & Hrun & Hperm & Hsorted & _); try reflexivity.
  exists l. split; [exact Hrun|]. split; [exact Hperm|exact Hsorted].
Defined.



Lemma views_omit_internal_fields_witness :
  match payload (fst (handle toy_hash toy_check toy_repr quiet
                        (UploadPhoto (Some (mkFile "new.png" "bytes"))) as_alice))
  with
  | Json body =>
      body !! "public_id" = None
      ∧ ∃ doc, body !! "photo" = Some (JDoc doc) ∧ doc !! "public_id" = None
  | _ => False
  end.
Proof.
  destruct (payload (fst (handle toy_hash toy_check toy_repr quiet
              (UploadPhoto (Some (mkFile "new.png" "bytes"))) as_alice)))
    as [body|c|] eqn:Hbody.
  - assert (Hk : "public_id" ∈ ["user_id"; "public_id"; "uploaded_at"])
      by (right; left).
    destruct (proj1 (views_omit_internal_fields toy_hash toy_check toy_repr quiet
                       as_alice "public_id" Hk)
                (Some (mkFile "new.png" "bytes")) body Hbody) as [Htop Hdoc].
    split; [exact Htop|].
    vm_compute in Hbody. injection Hbody as <-.
    eexists. split; [reflexivity|]. apply Hdoc. reflexivity.
  - vm_compute in Hbody. discriminate Hbody.
  - vm_compute in Hbody. discriminate Hbody.
Defined.

Lemma delete_malformed_id_witness :
  ∃ resp,
    handle toy_hash toy_check toy_repr quiet (DeletePhoto "it's-not-an-id") as_alice
    = (resp, as_alice)
    ∧ status resp = 500
    ∧ resp ≠ not_found
    ∧ resp = mkResponse 500 (Json (message_body false
        ("Deletion failed: " +:+ double_quote +:+ "it's-not-an-id" +:+
         double_quote +:+
         " is not a valid ObjectId, it must be a 12-byte input or a 24-character hex string"))).
Proof.
  destruct (delete_malformed_id toy_hash toy_check toy_repr quiet as_alice
              (str alice_id) "it's-not-an-id")
    as (_ & resp & Hrun & Hstatus & Hne & Hmsg); try reflexivity.
  exists resp. repeat split; try done.
  by apply (Hmsg gallery "alice").
Defined.

(** C10, as stated, fails: an identifier of 24 characters that is not a
    24-character hexadecimal string, 22 digits and two spaces, is
    accepted by the constructor, and the delete is answered by the 404
    response. *)
Lemma delete_spaced_id_counterexample :
  is_hex24 spaced_id = false
  ∧ handle toy_hash toy_check toy_repr quiet (DeletePhoto spaced_id) as_alice
    = (not_found, as_alice)
  ∧ status not_found = 404.
Proof. repeat split; reflexivity. Qed.

Example scenario_statuses :
  fst (run_requests toy_hash toy_check toy_repr
         [(first_id, Register (Some "alice") (Some "pw1"));
          (first_id, Register (Some "alice") (Some "pw2"));
          (first_id, Login (Some "alice") (Some "pw1"));
          (second_id, UploadPhoto (Some (mkFile "cat.png" "bytes")));
          (second_id, GetPhotos);
          (second_id, DeletePhoto (str dog_id));
          (second_id, DeletePhoto (str cat_id));
          (second_id, GetPhotos)]
         empty_gallery)
  = [200; 409; 200; 200; 200; 404; 200; 200].
Proof. vm_compute. reflexivity. Qed.

Example scenario_final_state :
  db (snd (run_requests toy_hash toy_check toy_repr
         [(first_id, Register (Some "alice") (Some "pw1"));
          (first_id, Login (Some "alice") (Some "pw1"));
          (second_id, UploadPhoto (Some (mkFile "cat.png" "bytes")));
          (second_id, DeletePhoto (str cat_id))]
         empty_gallery))
  = Some (mkDb [alice] []).
Proof. vm_compute. reflexivity. Qed.

(** ** Further behaviour of the handlers *)

Section Behaviour.

Variable generate_password_hash : string → string → exn + string.
Variable check_password_hash : string → string → exn + bool.
Variable repr : string → string.

Local Abbreviation handle := (handle generate_password_hash check_password_hash repr).

(** X1: a login whose user is found and whose password the hash check
    accepts answers 200 with the user name, and binds the session to
    that user: [user_id] and [username] are overwritten with the stored
    user's id and name, whoever was logged in before; the stores are
    untouched. *)
Theorem login_success_binds_session env s d username password user pw :
  db s = Some d →
  users_find_one username d = Some user →
  password = Some pw →
  check_password_hash (u_password user) pw = inr true →
  handle env (Login username password) s
  = (mkResponse 200 (Json (<["username" := JStr (u_username user)]>
                             (message_body true "Login successful."))),
     mkState (<["username" := u_username user]>
                (<["user_id" := str (u_id user)]> (session s)))
             (db s) (cloudinary s) (static_folder s))
  ∧ username = Some (u_username user)
  ∧ user ∈ users_collection d.
Proof.
  intros Hdb Hfind -> Hcheck. split.
  - run. rewrite Hcheck. unfold_monad. by rewrite Hdb.
  - destruct username as [u|]; [|done]. unfold users_find_one in Hfind.
    apply find_some in Hfind as [Hin Hu].
    apply bool_decide_eq_true_1 in Hu. rewrite list_elem_of_In. by subst.
Qed.

Lemma guard_rejects env r s :
  session s !! "user_id" = None → spec_protected r = true →
  handle env r s = (unauthorized, s).
Proof. intros Hs Hr. destruct r; try done; by run. Qed.

Lemma status_anonymous env s :
  session s !! "user_id" = None →
  handle env GetStatus s
  = (mkResponse 200 (Json (<["isLoggedIn" := JBool false]> ∅)), s).
Proof. intros Hs. by run. Qed.

(** X2: logout by a logged-in client answers 200, removes [user_id] and
    [username] from the session and touches nothing else; from the state
    it leaves, every protected route, logout included, answers the 401
    response, and status answers [{isLoggedIn: false}]. *)
Theorem logout_ends_session env s user_id :
  session s !! "user_id" = Some user_id →
  ∃ s',
    handle env Logout s
    = (mkResponse 200 (Json (message_body true "Logout successful.")), s')
    ∧ s' = mkState (delete "username" (delete "user_id" (session s)))
                   (db s) (cloudinary s) (static_folder s)
    ∧ (∀ env' r, spec_protected r = true →
                 handle env' r s' = (unauthorized, s'))
    ∧ (∀ env', handle env' GetStatus s'
               = (mkResponse 200 (Json (<["isLoggedIn" := JBool false]> ∅)), s')).
Proof.
  intros Hu. eexists. split; [by run|]. split; [done|].
  assert (delete "username" (delete "user_id" (session s)) !! "user_id" = None)
    as Hnone.
  { rewrite lookup_delete_ne by done. apply lookup_delete_eq. }
  split.
  - intros env' r Hr. by apply guard_rejects.
  - intros env'. by apply status_anonymous.
Qed.

(** X3: with the database not connected, register, login and, for a
    logged-in client, upload, list and delete all answer 500 with the
    body [{success: false, message: "Database Error"}] and change
    nothing; no blob is uploaded or destroyed. *)
Theorem database_down_uniform env r s :
  db s = None →
  uses_database r = true →
  (spec_protected r = true → is_Some (session s !! "user_id")) →
  handle env r s
  = (mkResponse 500 (Json (message_body false "Database Error")), s).
Proof.
  intros Hdb Hr Hs.
  destruct r; try done; try by run.
  all: destruct (Hs eq_refl) as [uid Hu]; by run.
Qed.

(** X4: the GET routes (status, list, static files) never change the
    state, whatever they answer, errors included. *)
Theorem get_routes_read_only env r s :
  is_get r = true → snd (handle env r s) = s.
Proof. intros Hr. destruct r; try done; by paths. Qed.

(** X5: what a request can touch.  The static folder never changes and a
    connected database stays connected (a disconnected one stays so);
    the session changes only in login and logout, the users only in
    register, the photos and the blobs only in upload and delete. *)
Theorem handle_frame env r s :
  static_folder (snd (handle env r s)) = static_folder s
  ∧ (is_Some (db (snd (handle env r s))) ↔ is_Some (db s))
  ∧ match r with
    | Login _ _ | Logout => True
    | _ => session (snd (handle env r s)) = session s
    end
  ∧ match r with
    | Register _ _ => True
    | _ => users_of (snd (handle env r s)) = users_of s
    end
  ∧ match r with
    | UploadPhoto _ | DeletePhoto _ => True
    | _ => photos_of (snd (handle env r s)) = photos_of s
           ∧ cloudinary (snd (handle env r s)) = cloudinary s
    end.
Proof.
  unfold users_of, photos_of.
  destruct r; paths; cbn [snd session db cloudinary static_folder] in *;
    simplify_eq; cbn; repeat split; intros; try done; try by eexists.
Qed.

Lemma upload_view_agrees p :
  delete "public_id" (delete "user_id" (delete "uploaded_at"
    (<["_id" := VStr (str (p_id p))]>
    (<["user_id" := VOid (p_user_id p)]>
    (<["src" := VStr (p_src p)]>
    (<["public_id" := VStr (p_public_id p)]>
    (<["title" := VStr (p_title p)]>
    (<["date" := VStr (p_date p)]>
    (<["uploaded_at" := VDate (p_uploaded_at p)]> ∅)))))))))
  = photo_view p.
Proof.
  unfold photo_view, doc_of_photo. apply map_eq. intros k.
  destruct (decide (k = "public_id")) as [->|]; [by simplify_map_eq|].
  destruct (decide (k = "user_id")) as [->|]; [by simplify_map_eq|].
  destruct (decide (k = "uploaded_at")) as [->|]; [by simplify_map_eq|].
  destruct (decide (k = "_id")) as [->|]; [by simplify_map_eq|].
  destruct (decide (k = "src")) as [->|]; [by simplify_map_eq|].
  destruct (decide (k = "title")) as [->|]; [by simplify_map_eq|].
  destruct (decide (k = "date")) as [->|]; [by simplify_map_eq|].
  by simplify_map_eq.
Qed.

Lemma insert_one_fresh {A} (id : A → ObjectId) doc coll :
  id doc ∉ id <$> coll → insert_one id doc coll = inr (coll ++ [doc])%list.
Proof. intros H. unfold insert_one. by rewrite bool_decide_eq_false_2. Qed.

Lemma insert_one_taken {A} (id : A → ObjectId) doc coll :
  id doc ∈ id <$> coll → insert_one id doc coll = inl (DuplicateKeyError (id doc)).
Proof. intros H. unfold insert_one. by rewrite bool_decide_eq_true_2. Qed.

Lemma run_upload_success
    env s d user_id name owner f secure_url blob :
  db s = Some d →
  session s !! "user_id" = Some user_id →
  session s !! "username" = Some name →
  parse user_id = Some owner →
  filename f ≠ EmptyString →
  cloud_upload_result env = inr (secure_url, blob) →
  new_object_id env ∉ p_id <$> photos_collection d →
  handle env (UploadPhoto (Some f)) s
  = (mkResponse 200
       (Json (<["photo" :=
                  JDoc (photo_view
                          (uploaded_photo env user_id owner f secure_url blob))]>
                (message_body true "Photo uploaded successfully."))),
     mkState (session s)
       (Some (mkDb (users_collection d)
                (photos_collection d ++
                   [uploaded_photo env user_id owner f secure_url blob])))
       (cloudinary s ∪
          {[("cloudgallery_user_" +:+ user_id) +:+ "/" +:+ blob]})
       (static_folder s)).
Proof.
  intros Hdb Hu Hn Howner Hf Hup Hfresh.
  assert (bool_decide (filename f = EmptyString) = false) as Hf'
    by by apply bool_decide_eq_false_2.
  pose proof (insert_one_fresh p_id
    (uploaded_photo env user_id owner f secure_url blob) _ Hfresh) as Hins.
  unfold uploaded_photo in *.
  run. by rewrite <- upload_view_agrees.
Qed.

(** X6: an upload by a logged-in client, with a file that has a name,
    Cloudinary accepting it and the driver generating a fresh id, answers
    200; it appends exactly one record, owned by the requester, titled
    with the file name, whose public id lies in the requester's folder
    [cloudgallery_user_<user id>], adds that blob, and returns as
    [photo] the very view that list returns for the record. *)
Theorem upload_success_records_photo
    env s d user_id name owner f secure_url blob :
  db s = Some d →
  session s !! "user_id" = Some user_id →
  session s !! "username" = Some name →
  parse user_id = Some owner →
  filename f ≠ EmptyString →
  cloud_upload_result env = inr (secure_url, blob) →
  new_object_id env ∉ p_id <$> photos_collection d →
  handle env (UploadPhoto (Some f)) s
  = (mkResponse 200
       (Json (<["photo" :=
                  JDoc (photo_view
                          (uploaded_photo env user_id owner f secure_url blob))]>
                (message_body true "Photo uploaded successfully."))),
     mkState (session s)
       (Some (mkDb (users_collection d)
                (photos_collection d ++
                   [uploaded_photo env user_id owner f secure_url blob])))
       (cloudinary s ∪
          {[("cloudgallery_user_" +:+ user_id) +:+ "/" +:+ blob]})
       (static_folder s)).
Proof. apply run_upload_success. Qed.

(** X7: when the blob upload succeeded and the insert of the record is
    then refused (the generated id is already taken), the handler has no
    answer of its own: the framework answers 500, no record is added,
    and the uploaded blob stays in the store. *)
Theorem upload_insert_failure_leaves_blob
    env s d user_id name owner f secure_url blob :
  db s = Some d →
  session s !! "user_id" = Some user_id →
  session s !! "username" = Some name →
  parse user_id = Some owner →
  filename f ≠ EmptyString →
  cloud_upload_result env = inr (secure_url, blob) →
  new_object_id env ∈ p_id <$> photos_collection d →
  handle env (UploadPhoto (Some f)) s
  = (mkResponse 500 ErrorPage,
     mkState (session s) (Some d)
       (cloudinary s ∪
          {[("cloudgallery_user_" +:+ user_id) +:+ "/" +:+ blob]})
       (static_folder s)).
Proof.
  intros Hdb Hu Hn Howner Hf Hup Htaken.
  assert (bool_decide (filename f = EmptyString) = false) as Hf'
    by by apply bool_decide_eq_false_2.
  pose proof (insert_one_taken p_id
    (uploaded_photo env user_id owner f secure_url blob) _ Htaken) as Hins.
  unfold uploaded_photo in *.
  by run.
Qed.

(** X8: for a logged-in client, a delete whose identifier no photo of
    the requester carries answers the 404 response and changes nothing,
    the same whether no photo has that identifier or only photos of
    other users have it. *)
Theorem delete_unknown_or_foreign_same env s d user_id name uid photo_id pid :
  db s = Some d →
  session s !! "user_id" = Some user_id →
  session s !! "username" = Some name →
  parse user_id = Some uid →
  parse photo_id = Some pid →
  (∀ q, q ∈ photos_collection d → p_id q = pid → p_user_id q ≠ uid) →
  handle env (DeletePhoto photo_id) s = (not_found, s).
Proof.
  intros Hdb Hu Hn Huid Hpid Hnone.
  assert (photos_find_one pid uid d = None) as Hfind.
  { destruct (photos_find_one pid uid d) as [q|] eqn:Hq; [|done].
    apply photos_find_one_found in Hq as (Hin & Hid & Hown).
    by destruct (Hnone q Hin Hid). }
  by run.
Qed.

Lemma photos_find_one_own d p :
  unique_ids d → p ∈ photos_collection d →
  photos_find_one (p_id p) (p_user_id p) d = Some p.
Proof.
  intros Hnd Hp. destruct (photos_find_one_present d p Hp) as [q Hq].
  rewrite Hq. apply photos_find_one_found in Hq as (Hin & Hid & _).
  by rewrite (unique_ids_inj d q p Hnd Hin Hp Hid).
Qed.

Lemma elem_of_delete_one o coll q :
  NoDup (p_id <$> coll) →
  q ∈ delete_one o coll ↔ q ∈ coll ∧ p_id q ≠ o.
Proof.
  induction coll as [|p l IH]; cbn [delete_one].
  - intros _. split; [by intros ?%elem_of_nil|by intros [?%elem_of_nil _]].
  - rewrite fmap_cons. intros [Hp Hnd]%NoDup_cons. case_bool_decide as Hid.
    + split.
      * intros Hq. split; [by right|]. intros Heq. apply Hp.
        rewrite Hid, <- Heq. by apply list_elem_of_fmap_2.
      * intros [[->|Hq]%elem_of_cons Hne]; [done|done].
    + rewrite !elem_of_cons, (IH Hnd). split.
      * intros [->|[Hq Hne]]; [by split; [left|]|by split; [right|]].
      * intros [[->|Hq] Hne]; [by left|by right].
Qed.

(** X9: a delete by the owner, Cloudinary's deletion succeeding, answers
    200, destroys the blob of that photo, and removes that record and no
    other: the photos left are those stored before with another
    identifier, and their identifiers are still unique. *)
Theorem delete_success_removes_only_that_photo
    env s d user_id name photo_id photo :
  db s = Some d →
  session s !! "user_id" = Some user_id →
  session s !! "username" = Some name →
  parse user_id = Some (p_user_id photo) →
  parse photo_id = Some (p_id photo) →
  unique_ids d →
  photo ∈ photos_collection d →
  cloud_destroy_result env = None →
  ∃ photos',
    handle env (DeletePhoto photo_id) s
    = (mkResponse 200 (Json (message_body true "Photo deleted successfully.")),
       mkState (session s) (Some (mkDb (users_collection d) photos'))
               (cloudinary s ∖ {[p_public_id photo]}) (static_folder s))
    ∧ (∀ q, q ∈ photos' ↔ q ∈ photos_collection d ∧ p_id q ≠ p_id photo)
    ∧ NoDup (p_id <$> photos').
Proof.
  intros Hdb Hu Hn Huid Hpid Hnd Hin Hok.
  exists (delete_one (p_id photo) (photos_collection d)).
  pose proof (photos_find_one_own d photo Hnd Hin) as Hfind.
  split; [by run|]. split.
  - intros q. by apply elem_of_delete_one.
  - by apply delete_one_unique.
Qed.

Lemma sorted_head_newest (l : list Photo) p :
  StronglySorted newer_first l → p ∈ l →
  (∀ q, q ∈ l → q ≠ p → (p_uploaded_at q < p_uploaded_at p)%Z) →
  head l = Some p.
Proof.
  intros Hs Hp Hnew. destruct l as [|x l]; [by apply elem_of_nil in Hp|].
  cbn. f_equal. destruct (decide (x = p)) as [|Hne]; [done|].
  apply StronglySorted_inv in Hs as [_ Hall].
  apply elem_of_cons in Hp as [->|Hp]; [done|].
  rewrite Forall_forall in Hall. specialize (Hall p Hp).
  specialize (Hnew x ltac:(by left) Hne). unfold newer_first in Hall. lia.
Qed.

(** X10: after a successful upload, the uploader's list answers 200 and
    contains the new record, with one element more than the records the
    uploader owned before; when the upload instant is later than that of
    all of them, the new record comes first. *)
Theorem uploaded_photo_is_listed
    env env' s d user_id name owner f secure_url blob :
  db s = Some d →
  session s !! "user_id" = Some user_id →
  session s !! "username" = Some name →
  parse user_id = Some owner →
  filename f ≠ EmptyString →
  cloud_upload_result env = inr (secure_url, blob) →
  new_object_id env ∉ p_id <$> photos_collection d →
  ∃ l,
    handle env' GetPhotos (snd (handle env (UploadPhoto (Some f)) s))
    = (mkResponse 200
         (Json (<["success" := JBool true]>
                  (<["photos" := JDocs (photo_view <$> l)]> ∅))),
       snd (handle env (UploadPhoto (Some f)) s))
    ∧ uploaded_photo env user_id owner f secure_url blob ∈ l
    ∧ length l
      = S (length (filter (λ p, p_user_id p = owner) (photos_collection d)))
    ∧ ((∀ q, q ∈ photos_collection d → p_user_id q = owner →
             (p_uploaded_at q < utcnow env)%Z) →
       head l = Some (uploaded_photo env user_id owner f secure_url blob)).
Proof.
  intros Hdb Hu Hn Howner Hf Hup Hfresh.
  rewrite (run_upload_success env s d user_id name owner f secure_url blob)
    by done.
  cbn [snd]. set (p := uploaded_photo _ _ _ _ _ _).
  set (d1 := mkDb _ _). exists (photos_find_sorted owner d1).
  assert (Hperm : photos_find_sorted owner d1
                  ≡ₚ filter (λ p, p_user_id p = owner) (photos_collection d)
                     ++ [p]).
  { unfold photos_find_sorted. rewrite merge_sort_Permutation.
    unfold d1. cbn [photos_collection]. rewrite filter_app.
    by rewrite filter_cons_True, filter_nil by done. }
  split; [by run|]. repeat split.
  - rewrite Hperm. apply elem_of_app. right. by left.
  - rewrite Hperm, length_app. cbn. lia.
  - intros Hnew. apply sorted_head_newest.
    + apply StronglySorted_merge_sort; apply _.
    + rewrite Hperm. apply elem_of_app. right. by left.
    + intros q Hq Hne. rewrite Hperm in Hq.
      apply elem_of_app in Hq as [Hq|Hq].
      * apply list_elem_of_filter in Hq as [Hown Hq]. by apply Hnew.
      * by apply list_elem_of_singleton in Hq.
Qed.

Lemma find_app_fresh {A} (P : A → bool) l x :
  (∀ y, y ∈ l → P y = false) → P x = true →
  find P (l ++ [x])%list = Some x.
Proof.
  intros Hl Hx. induction l as [|y l IH]; cbn.
  - by rewrite Hx.
  - rewrite (Hl y) by by left. apply IH. intros z Hz. apply Hl. by right.
Qed.

Lemma delete_one_app_fresh o coll p :
  o ∉ p_id <$> coll → p_id p = o →
  delete_one o (coll ++ [p])%list = coll.
Proof.
  intros Hfresh Hp. induction coll as [|q l IH]; cbn.
  - by rewrite bool_decide_eq_true_2.
  - rewrite fmap_cons in Hfresh. apply not_elem_of_cons in Hfresh as [Hq Hl].
    rewrite bool_decide_eq_false_2 by done. by rewrite IH.
Qed.

(** X11: an upload followed by the uploader's delete of the identifier
    just generated, both Cloudinary calls succeeding, answers 200 and
    brings the database back to what it was before the upload; the only
    trace in the blob store is that the uploaded public id is not in
    it. *)
Theorem upload_then_delete_restores
    env env' s d user_id name owner f secure_url blob photo_id :
  db s = Some d →
  session s !! "user_id" = Some user_id →
  session s !! "username" = Some name →
  parse user_id = Some owner →
  filename f ≠ EmptyString →
  cloud_upload_result env = inr (secure_url, blob) →
  new_object_id env ∉ p_id <$> photos_collection d →
  parse photo_id = Some (new_object_id env) →
  cloud_destroy_result env' = None →
  handle env' (DeletePhoto photo_id) (snd (handle env (UploadPhoto (Some f)) s))
  = (mkResponse 200 (Json (message_body true "Photo deleted successfully.")),
     mkState (session s) (db s)
       (cloudinary s ∖ {[("cloudgallery_user_" +:+ user_id) +:+ "/" +:+ blob]})
       (static_folder s)).
Proof.
  intros Hdb Hu Hn Howner Hf Hup Hfresh Hpid Hok.
  rewrite (run_upload_success env s d user_id name owner f secure_url blob)
    by done.
  cbn [snd]. set (p := uploaded_photo _ _ _ _ _ _).
  assert (photos_find_one (new_object_id env) owner
            (mkDb (users_collection d) (photos_collection d ++ [p]))
          = Some p) as Hfind.
  { unfold photos_find_one. cbn [photos_collection]. apply find_app_fresh.
    - intros q Hq. rewrite bool_decide_eq_false_2; [done|].
      intros Heq. apply Hfresh. rewrite <- Heq. by apply list_elem_of_fmap_2.
    - cbn. by rewrite !bool_decide_eq_true_2. }
  assert (delete_one (new_object_id env) (photos_collection d ++ [p])
          = photos_collection d) as Hdel
    by (by apply delete_one_app_fresh).
  run. rewrite Hdel. unfold jsonify. do 2 f_equal; [by destruct d|].
  apply set_eq. intros x.
  rewrite !elem_of_difference, elem_of_union. tauto.
Qed.

Lemma run_login_success env s d username user pw :
  db s = Some d →
  users_find_one username d = Some user →
  check_password_hash (u_password user) pw = inr true →
  handle env (Login username (Some pw)) s
  = (mkResponse 200 (Json (<["username" := JStr (u_username user)]>
                             (message_body true "Login successful."))),
     mkState (<["username" := u_username user]>
                (<["user_id" := str (u_id user)]> (session s)))
             (db s) (cloudinary s) (static_folder s)).
Proof. intros Hdb Hfind Hcheck. run. rewrite Hcheck. unfold_monad. by rewrite Hdb. Qed.

(** X12: after a successful login of a user whose stored id is a
    well-formed ObjectId, status answers that user's name and list
    answers 200 with the views of exactly that user's photos: the id
    written into the session as a string reads back as the user's id. *)
Theorem login_then_status_and_list env env' s d username user pw :
  db s = Some d →
  users_find_one username d = Some user →
  check_password_hash (u_password user) pw = inr true →
  parse (str (u_id user)) = Some (u_id user) →
  handle env' GetStatus (snd (handle env (Login username (Some pw)) s))
  = (mkResponse 200 (Json (<["isLoggedIn" := JBool true]>
                             (<["username" := JStr (u_username user)]> ∅))),
     snd (handle env (Login username (Some pw)) s))
  ∧ ∃ l,
      handle env' GetPhotos (snd (handle env (Login username (Some pw)) s))
      = (mkResponse 200
           (Json (<["success" := JBool true]>
                    (<["photos" := JDocs (photo_view <$> l)]> ∅))),
         snd (handle env (Login username (Some pw)) s))
      ∧ l ≡ₚ filter (λ p, p_user_id p = u_id user) (photos_collection d).
Proof.
  intros Hdb Hfind Hcheck Hid.
  rewrite (run_login_success env s d username user pw) by done. cbn [snd].
  split.
  - run. by simplify_map_eq.
  - exists (photos_find_sorted (u_id user) d). split.
    + run. simplify_map_eq. by run.
    + apply merge_sort_Permutation.
Qed.

Lemma run_register_success env s d u pw hashed :
  db s = Some d →
  u ≠ EmptyString → pw ≠ EmptyString →
  (∀ x, x ∈ users_collection d → u_username x ≠ u) →
  generate_password_hash (bcrypt_salt env) pw = inr hashed →
  new_object_id env ∉ u_id <$> users_collection d →
  handle env (Register (Some u) (Some pw)) s
  = (mkResponse 200
       (Json (message_body true "Registration successful! Login now.")),
     mkState (session s)
       (Some (mkDb
          (users_collection d ++ [mkUser (new_object_id env) u hashed])
          (photos_collection d)))
       (cloudinary s) (static_folder s)).
Proof.
  intros Hdb Hu Hpw Habs Hgen Hfresh.
  assert (bool_decide (u = EmptyString) = false) as Hu'
    by by apply bool_decide_eq_false_2.
  assert (bool_decide (pw = EmptyString) = false) as Hpw'
    by by apply bool_decide_eq_false_2.
  assert (users_find_one (Some u) d = None) as Hnone.
  { apply users_find_one_absent. intros x Hx [= Heq]. by apply (Habs x). }
  pose proof (insert_one_fresh u_id
    (mkUser (new_object_id env) u hashed) _ Hfresh) as Hins.
  run. rewrite Hgen. by run.
Qed.

(** X13: after a successful registration, a login with the same user
    name and password, which bcrypt accepts against the hash it made,
    answers 200 and binds the session to the id generated at
    registration; a second registration of the same user name, whatever
    the password, answers 409 and changes nothing. *)
Theorem register_then_login_and_conflict env env' s d u pw pw' hashed :
  db s = Some d →
  u ≠ EmptyString → pw ≠ EmptyString → pw' ≠ EmptyString →
  (∀ x, x ∈ users_collection d → u_username x ≠ u) →
  new_object_id env ∉ u_id <$> users_collection d →
  generate_password_hash (bcrypt_salt env) pw = inr hashed →
  check_password_hash hashed pw = inr true →
  (∃ s2,
     handle env' (Login (Some u) (Some pw))
            (snd (handle env (Register (Some u) (Some pw)) s))
     = (mkResponse 200 (Json (<["username" := JStr u]>
                                (message_body true "Login successful."))), s2)
     ∧ session s2 !! "user_id" = Some (str (new_object_id env))
     ∧ session s2 !! "username" = Some u)
  ∧ handle env' (Register (Some u) (Some pw'))
           (snd (handle env (Register (Some u) (Some pw)) s))
    = (mkResponse 409 (Json (message_body false "Username already exists.")),
       snd (handle env (Register (Some u) (Some pw)) s)).
Proof.
  intros Hdb Hu Hpw Hpw' Habs Hfresh Hgen Hcheck.
  rewrite (run_register_success env s d u pw hashed) by done. cbn [snd].
  set (new := mkUser _ _ _). set (d1 := mkDb _ _).
  assert (users_find_one (Some u) d1 = Some new) as Hfind.
  { unfold users_find_one, d1. cbn [users_collection]. apply find_app_fresh.
    - intros x Hx. apply bool_decide_eq_false_2. by apply Habs.
    - by apply bool_decide_eq_true_2. }
  split.
  - eexists. split.
    + by apply (run_login_success env' _ d1 (Some u) new pw).
    + cbn [session]. by simplify_map_eq.
  - assert (bool_decide (u = EmptyString) = false) as Hu'
      by by apply bool_decide_eq_false_2.
    assert (bool_decide (pw' = EmptyString) = false) as Hpw''
      by by apply bool_decide_eq_false_2.
    by run.
Qed.

Lemma users_find_one_none d u :
  users_find_one (Some u) d = None → u ∉ u_username <$> users_collection d.
Proof.
  unfold users_find_one. intros Hnone Hin.
  apply list_elem_of_fmap in Hin as (x & -> & Hx).
  apply list_elem_of_In in Hx.
  pose proof (find_none _ _ Hnone x Hx) as Hb. cbn in Hb.
  by apply bool_decide_eq_false_1 in Hb.
Qed.

Lemma NoDup_snoc_fresh {A B} (f : A → B) l x :
  NoDup (f <$> l) → f x ∉ f <$> l → NoDup (f <$> (l ++ [x])%list).
Proof.
  intros Hnd Hx. rewrite fmap_app. apply NoDup_app.
  repeat split; [done| |apply NoDup_singleton].
  intros y Hy Hy'. apply list_elem_of_singleton in Hy'. by subst.
Qed.

(** X14: user names stay unique: if no two stored users share a user
    name before a request, none do after it, because register looks the
    name up before it inserts. *)
Theorem usernames_stay_unique env r s :
  NoDup (u_username <$> users_of s) →
  NoDup (u_username <$> users_of (snd (handle env r s))).
Proof.
  unfold users_of. intros Hnd.
  destruct r; paths; cbn [snd db from_option users_collection] in *;
    simplify_eq; cbn [from_option users_collection] in *; try done.
  match goal with
  | H : insert_one u_id _ _ = inr _, H' : users_find_one _ _ = None |- _ =>
      unfold insert_one in H; case_bool_decide; simplify_eq;
      apply users_find_one_none in H'
  end.
  by apply NoDup_snoc_fresh.
Qed.

(** X15: identifiers stay unique in both collections: a request never
    leaves two users, or two photos, with the same [_id]. *)
Theorem ids_stay_unique env r s :
  NoDup (u_id <$> users_of s) → NoDup (p_id <$> photos_of s) →
  NoDup (u_id <$> users_of (snd (handle env r s)))
  ∧ NoDup (p_id <$> photos_of (snd (handle env r s))).
Proof.
  unfold users_of, photos_of. intros Hu Hp.
  destruct r; paths;
    cbn [snd db from_option users_collection photos_collection] in *;
    simplify_eq; cbn [from_option users_collection photos_collection] in *;
    try done;
    try match goal with
    | H : insert_one _ _ _ = inr _ |- _ =>
        unfold insert_one in H; case_bool_decide; simplify_eq
    end;
    split; try done; try (by apply NoDup_snoc_fresh);
    by apply delete_one_unique.
Qed.

(** X16: stored photos are never modified.  Every photo in the
    collection after a request was in it, unchanged, before the request,
    unless the request is an upload and the photo is the new record:
    then its owner is the id in the requester's session and its title
    the name of the uploaded file. *)
Theorem photos_kept_or_new_of_requester env r s q :
  q ∈ photos_of (snd (handle env r s)) →
  q ∈ photos_of s
  ∨ ∃ f user_id,
      r = UploadPhoto (Some f)
      ∧ session s !! "user_id" = Some user_id
      ∧ parse user_id = Some (p_user_id q)
      ∧ p_id q = new_object_id env
      ∧ p_title q = filename f.
Proof.
  unfold photos_of.
  destruct r; paths; cbn [snd db from_option photos_collection] in *;
    simplify_eq; cbn [from_option photos_collection] in *;
    intros Hq; try (by left).
  - match goal with
    | H : insert_one _ _ _ = inr _ |- _ =>
        unfold insert_one in H; case_bool_decide; simplify_eq
    end.
    apply elem_of_app in Hq as [Hq|Hq]; [by left|].
    apply list_elem_of_singleton in Hq as ->. right. by eauto 10.
  - left. eapply elem_of_sublist; [done|apply delete_one_sublist].
Qed.

(** X17: stored users are never removed or modified: the users before a
    request are a prefix of the users after it, and a user added by the
    request carries the registered name and, as password, what bcrypt
    made of the submitted password. *)
Theorem users_only_appended env r s :
  users_of s `prefix_of` users_of (snd (handle env r s))
  ∧ ∀ x, x ∈ users_of (snd (handle env r s)) →
         x ∈ users_of s
         ∨ ∃ u pw hashed,
             r = Register (Some u) (Some pw)
             ∧ generate_password_hash (bcrypt_salt env) pw = inr hashed
             ∧ x = mkUser (new_object_id env) u hashed.
Proof.
  unfold users_of.
  destruct r; paths; cbn [snd db from_option users_collection] in *;
    simplify_eq; cbn [from_option users_collection] in *;
    (split; [try done|intros x Hx; try (by left)]).
  - match goal with
    | H : insert_one _ _ _ = inr _ |- _ =>
        unfold insert_one in H; case_bool_decide; simplify_eq
    end.
    by apply prefix_app_r.
  - match goal with
    | H : insert_one _ _ _ = inr _ |- _ =>
        unfold insert_one in H; case_bool_decide; simplify_eq
    end.
    apply elem_of_app in Hx as [Hx|Hx]; [by left|].
    apply list_elem_of_singleton in Hx as ->. right. by eauto 10.
Qed.

(** X18: in every state a client can reach, the session holds no key
    other than [user_id] and [username], and holds both or neither. *)
Theorem reachable_session_shape s :
  reachable generate_password_hash check_password_hash repr s →
  (∀ k, is_Some (session s !! k) → k = "user_id" ∨ k = "username")
  ∧ (is_Some (session s !! "user_id") ↔ is_Some (session s !! "username")).
Proof.
  induction 1 as [d c f|env r s _ IH|s d c _ IH]; cbn [session]; [| |done].
  - split; [intros k [x Hx]|split; intros [x Hx]]; by simplify_map_eq.
  - destruct IH as [IHk IHb].
    pose proof (handle_session generate_password_hash check_password_hash repr
                  env r s) as Hs.
    destruct r; try (by rewrite Hs).
    + paths; cbn [snd session]; try done. split.
      * intros k [x Hx].
        destruct (decide (k = "username")) as [->|]; [by right|].
        destruct (decide (k = "user_id")) as [->|]; [by left|].
        apply IHk. exists x. by simplify_map_eq.
      * split; intros _; eexists; by simplify_map_eq.
    + paths; cbn [snd session]; try done. split.
      * intros k [x Hx].
        destruct (decide (k = "username")) as [->|]; [by right|].
        destruct (decide (k = "user_id")) as [->|]; [by left|].
        apply IHk. exists x. by simplify_map_eq.
      * split; intros [x Hx]; by simplify_map_eq.
Qed.

Lemma forallb_false_elem {A} (f : A → bool) l :
  forallb f l = false → ∃ x, x ∈ l ∧ f x = false.
Proof.
  induction l as [|x l IH]; [done|]. cbn. destruct (f x) eqn:Hx.
  - intros (y & Hy & Hfy)%IH. exists y. split; [by right|done].
  - intros _. exists x. split; [by left|done].
Qed.

(** X19: start-up raises [EnvironmentError] exactly when one of the six
    configuration variables is unset or set to the empty string;
    otherwise the application serves, whether or not the database could
    be reached. *)
Theorem startup_requires_configuration environ mongo cloud files :
  ((∃ name, name ∈ critical_configuration
            ∧ (environ !! name = None ∨ environ !! name = Some EmptyString))
   ↔ startup environ mongo cloud files
     = EnvironmentError "Critical environment variables missing.")
  ∧ ((∀ name, name ∈ critical_configuration →
              ∃ v, environ !! name = Some v ∧ v ≠ EmptyString)
     ↔ startup environ mongo cloud files
       = Serving (mkState ∅ mongo cloud files)).
Proof.
  unfold startup, getenv.
  destruct (forallb _ critical_configuration) eqn:Hall.
  - rewrite forallb_forall in Hall.
    assert (∀ name, name ∈ critical_configuration →
                    ∃ v, environ !! name = Some v ∧ v ≠ EmptyString) as Hok.
    { intros name Hin. apply list_elem_of_In, Hall in Hin.
      destruct (environ !! name) as [v|]; [|done]. exists v. split; [done|].
      intros ->. done. }
    split; split; try done.
    intros (name & Hin & Hbad). destruct (Hok name Hin) as (v & Hv & Hne).
    destruct Hbad as [Hbad|Hbad]; congruence.
  - assert (∃ name, name ∈ critical_configuration
                    ∧ (environ !! name = None
                       ∨ environ !! name = Some EmptyString)) as Hbad.
    { apply forallb_false_elem in Hall as (name & Hin & Hname).
      exists name. split; [done|].
      destruct (environ !! name) as [v|] eqn:Hv; [|by left]. right.
      cbn in Hname. apply negb_false_iff, bool_decide_eq_true_1 in Hname.
      by subst. }
    split; split; try done.
    intros Hok. destruct Hbad as (name & Hin & Hbad).
    destruct (Hok name Hin) as (v & Hv & Hne).
    destruct Hbad as [Hbad|Hbad]; congruence.
Qed.

(** X20: when the application starts without having reached the
    database, a new client gets 500 "Database Error" from register and
    login, the 401 response from every protected route, and
    [{isLoggedIn: false}] from status; none of them changes the state. *)
Theorem startup_without_database environ cloud files s env :
  startup environ None cloud files = Serving s →
  (∀ u p, handle env (Register u p) s
          = (mkResponse 500 (Json (message_body false "Database Error")), s))
  ∧ (∀ u p, handle env (Login u p) s
            = (mkResponse 500 (Json (message_body false "Database Error")), s))
  ∧ (∀ r, spec_protected r = true → handle env r s = (unauthorized, s))
  ∧ handle env GetStatus s
    = (mkResponse 200 (Json (<["isLoggedIn" := JBool false]> ∅)), s).
Proof.
  unfold startup. destruct (forallb _ _); [|done]. intros [= <-].
  split; [|split; [|split]].
  - intros u p. by run.
  - intros u p. by run.
  - intros r Hr. by apply guard_rejects.
  - by apply status_anonymous.
Qed.

End Behaviour.

(** ** The further theorems at concrete inputs *)

Lemma login_success_binds_session_witness :
  handle toy_hash toy_check toy_repr quiet (Login (Some "bob") (Some "pw2")) as_alice
  = (mkResponse 200 (Json (<["username" := JStr "bob"]>
                             (message_body true "Login successful."))),
     mkState (<["username" := "bob"]>
                (<["user_id" := str bob_id]> (session as_alice)))
             (Some gallery) blobs ∅).
Proof.
  refine (proj1 (login_success_binds_session toy_hash toy_check toy_repr quiet as_alice
    gallery (Some "bob") (Some "pw2") bob "pw2" _ _ _ _)); reflexivity.
Defined.

Lemma logout_ends_session_witness :
  ∃ s',
    handle toy_hash toy_check toy_repr quiet Logout as_alice
    = (mkResponse 200 (Json (message_body true "Logout successful.")), s')
    ∧ handle toy_hash toy_check toy_repr quiet Logout s' = (unauthorized, s').
Proof.
  destruct (logout_ends_session toy_hash toy_check toy_repr quiet as_alice (str alice_id))
    as (s' & Hrun & _ & Hguard & _); [reflexivity|].
  exists s'. split; [exact Hrun|]. apply Hguard. reflexivity.
Defined.

Lemma database_down_uniform_witness :
  handle toy_hash toy_check toy_repr quiet (UploadPhoto (Some new_file)) offline_alice
  = (mkResponse 500 (Json (message_body false "Database Error")), offline_alice).
Proof.
  apply (database_down_uniform toy_hash toy_check toy_repr quiet
           (UploadPhoto (Some new_file)) offline_alice).
  - reflexivity.
  - reflexivity.
  - intros _. eexists. reflexivity.
Defined.

Lemma get_routes_read_only_witness :
  snd (handle toy_hash toy_check toy_repr quiet GetPhotos as_alice) = as_alice.
Proof.
  apply (get_routes_read_only toy_hash toy_check toy_repr quiet GetPhotos as_alice).
  reflexivity.
Defined.

Lemma fresh_id_is_fresh : new_object_id quiet ∉ p_id <$> photos_collection gallery.
Proof.
  cbn. intros H. apply elem_of_cons in H as [H|H]; [discriminate H|].
  apply list_elem_of_singleton in H. discriminate H.
Defined.

Lemma clash_id_is_taken : new_object_id clash ∈ p_id <$> photos_collection gallery.
Proof. cbn. left. Defined.

Lemma upload_success_records_photo_witness :
  handle toy_hash toy_check toy_repr quiet (UploadPhoto (Some new_file)) as_alice
  = (mkResponse 200
       (Json (<["photo" :=
                  JDoc (photo_view
                          (uploaded_photo quiet (str alice_id) alice_id new_file
                             "https://res.example/new.png" "new"))]>
                (message_body true "Photo uploaded successfully."))),
     mkState (session as_alice)
       (Some (mkDb [alice; bob]
                [cat; dog;
                 uploaded_photo quiet (str alice_id) alice_id new_file
                   "https://res.example/new.png" "new"]))
       (blobs ∪ {[("cloudgallery_user_" +:+ str alice_id) +:+ "/" +:+ "new"]})
       ∅).
Proof.
  apply (upload_success_records_photo toy_hash toy_check toy_repr quiet as_alice gallery
           (str alice_id) "alice" alice_id new_file
           "https://res.example/new.png" "new").
  - reflexivity.
  - reflexivity.
  - reflexivity.
  - reflexivity.
  - discriminate.
  - reflexivity.
  - exact fresh_id_is_fresh.
Defined.

Lemma upload_insert_failure_leaves_blob_witness :
  handle toy_hash toy_check toy_repr clash (UploadPhoto (Some new_file)) as_alice
  = (mkResponse 500 ErrorPage,
     mkState (session as_alice) (Some gallery)
       (blobs ∪ {[("cloudgallery_user_" +:+ str alice_id) +:+ "/" +:+ "new"]})
       ∅).
Proof.
  apply (upload_insert_failure_leaves_blob toy_hash toy_check toy_repr clash as_alice
           gallery (str alice_id) "alice" alice_id new_file
           "https://res.example/new.png" "new").
  - reflexivity.
  - reflexivity.
  - reflexivity.
  - reflexivity.
  - discriminate.
  - reflexivity.
  - exact clash_id_is_taken.
Defined.

Lemma delete_unknown_or_foreign_same_witness :
  handle toy_hash toy_check toy_repr quiet (DeletePhoto (str fresh_id)) as_bob
  = (not_found, as_bob)
  ∧ handle toy_hash toy_check toy_repr quiet (DeletePhoto (str cat_id)) as_bob
    = (not_found, as_bob).
Proof.
  split.
  - apply (delete_unknown_or_foreign_same toy_hash toy_check toy_repr quiet as_bob
             gallery (str bob_id) "bob" bob_id (str fresh_id) fresh_id);
      try reflexivity.
    intros q Hq Hid.
    apply elem_of_cons in Hq as [->|Hq]; [discriminate Hid|].
    apply list_elem_of_singleton in Hq as ->. discriminate Hid.
  - apply (delete_unknown_or_foreign_same toy_hash toy_check toy_repr quiet as_bob
             gallery (str bob_id) "bob" bob_id (str cat_id) cat_id);
      try reflexivity.
    intros q Hq Hid.
    apply elem_of_cons in Hq as [->|Hq]; [discriminate|].
    apply list_elem_of_singleton in Hq as ->. discriminate Hid.
Defined.

Lemma delete_success_removes_only_that_photo_witness :
  ∃ photos',
    handle toy_hash toy_check toy_repr quiet (DeletePhoto (str cat_id)) as_alice
    = (mkResponse 200 (Json (message_body true "Photo deleted successfully.")),
       mkState (session as_alice) (Some (mkDb [alice; bob] photos'))
               (blobs ∖ {[p_public_id cat]}) ∅)
    ∧ (dog ∈ photos' ∧ cat ∉ photos').
Proof.
  destruct (delete_success_removes_only_that_photo toy_hash toy_check toy_repr quiet
              as_alice gallery (str alice_id) "alice" (str cat_id) cat)
    as (photos' & Hrun & Hmem & _).
  - reflexivity.
  - reflexivity.
  - reflexivity.
  - reflexivity.
  - reflexivity.
  - exact unique_ids_gallery.
  - left.
  - reflexivity.
  - exists photos'. split; [exact Hrun|]. split.
    + apply Hmem. split; [right; left|discriminate].
    + intros Hcat. apply Hmem in Hcat as [_ Hne]. by apply Hne.
Defined.

Lemma uploaded_photo_is_listed_witness :
  ∃ l,
    handle toy_hash toy_check toy_repr quiet GetPhotos
      (snd (handle toy_hash toy_check toy_repr quiet (UploadPhoto (Some new_file)) as_alice))
    = (mkResponse 200
         (Json (<["success" := JBool true]>
                  (<["photos" := JDocs (photo_view <$> l)]> ∅))),
       snd (handle toy_hash toy_check toy_repr quiet (UploadPhoto (Some new_file)) as_alice))
    ∧ length l = 2%nat
    ∧ head l = Some (uploaded_photo quiet (str alice_id) alice_id new_file
                       "https://res.example/new.png" "new").
Proof.
  destruct (uploaded_photo_is_listed toy_hash toy_check toy_repr quiet quiet as_alice
              gallery (str alice_id) "alice" alice_id new_file
              "https://res.example/new.png" "new")
    as (l & Hrun & _ & Hlen & Hhead).
  - reflexivity.
  - reflexivity.
  - reflexivity.
  - reflexivity.
  - discriminate.
  - reflexivity.
  - exact fresh_id_is_fresh.
  - exists l. split; [exact Hrun|]. split; [exact Hlen|].
    apply Hhead. intros q Hq Hown.
    apply elem_of_cons in Hq as [->|Hq]; [reflexivity|].
    apply list_elem_of_singleton in Hq as ->. discriminate Hown.
Defined.

Lemma upload_then_delete_restores_witness :
  handle toy_hash toy_check toy_repr quiet (DeletePhoto (str fresh_id))
    (snd (handle toy_hash toy_check toy_repr quiet (UploadPhoto (Some new_file)) as_alice))
  = (mkResponse 200 (Json (message_body true "Photo deleted successfully.")),
     mkState (session as_alice) (Some gallery)
       (blobs ∖ {[("cloudgallery_user_" +:+ str alice_id) +:+ "/" +:+ "new"]})
       ∅).
Proof.
  apply (upload_then_delete_restores toy_hash toy_check toy_repr quiet quiet as_alice
           gallery (str alice_id) "alice" alice_id new_file
           "https://res.example/new.png" "new" (str fresh_id)).
  - reflexivity.
  - reflexivity.
  - reflexivity.
  - reflexivity.
  - discriminate.
  - reflexivity.
  - exact fresh_id_is_fresh.
  - reflexivity.
  - reflexivity.
Defined.

Lemma login_then_status_and_list_witness :
  handle toy_hash toy_check toy_repr quiet GetStatus
    (snd (handle toy_hash toy_check toy_repr quiet (Login (Some "alice") (Some "pw1"))
            anonymous))
  = (mkResponse 200 (Json (<["isLoggedIn" := JBool true]>
                             (<["username" := JStr "alice"]> ∅))),
     snd (handle toy_hash toy_check toy_repr quiet (Login (Some "alice") (Some "pw1"))
            anonymous)).
Proof.
  refine (proj1 (login_then_status_and_list toy_hash toy_check toy_repr quiet quiet
    anonymous gallery (Some "alice") alice "pw1" _ _ _ _)); reflexivity.
Defined.

Lemma carol_is_new :
  ∀ x, x ∈ users_collection gallery → u_username x ≠ "carol".
Proof.
  intros x Hx. apply elem_of_cons in Hx as [->|Hx]; [discriminate|].
  apply list_elem_of_singleton in Hx as ->. discriminate.
Defined.

Lemma fresh_id_is_no_user : new_object_id quiet ∉ u_id <$> users_collection gallery.
Proof.
  cbn. intros H. apply elem_of_cons in H as [H|H]; [discriminate H|].
  apply list_elem_of_singleton in H. discriminate H.
Defined.

Lemma register_then_login_and_conflict_witness :
  (∃ s2,
     handle toy_hash toy_check toy_repr quiet (Login (Some "carol") (Some "pw3"))
       (snd (handle toy_hash toy_check toy_repr quiet
               (Register (Some "carol") (Some "pw3")) anonymous))
     = (mkResponse 200 (Json (<["username" := JStr "carol"]>
                                (message_body true "Login successful."))), s2)
     ∧ session s2 !! "user_id" = Some (str fresh_id)
     ∧ session s2 !! "username" = Some "carol")
  ∧ handle toy_hash toy_check toy_repr quiet (Register (Some "carol") (Some "other"))
      (snd (handle toy_hash toy_check toy_repr quiet
              (Register (Some "carol") (Some "pw3")) anonymous))
    = (mkResponse 409 (Json (message_body false "Username already exists.")),
       snd (handle toy_hash toy_check toy_repr quiet
              (Register (Some "carol") (Some "pw3")) anonymous)).
Proof.
  apply (register_then_login_and_conflict toy_hash toy_check toy_repr quiet
           quiet anonymous gallery "carol" "pw3" "other"
           (toy_digest "salt" "pw3")).
  - reflexivity.
  - discriminate.
  - discriminate.
  - discriminate.
  - exact carol_is_new.
  - exact fresh_id_is_no_user.
  - reflexivity.
  - reflexivity.
Defined.

Lemma usernames_gallery : NoDup (u_username <$> users_of anonymous).
Proof.
  cbn. apply NoDup_cons. split.
  - intros H. apply list_elem_of_singleton in H. discriminate H.
  - apply NoDup_singleton.
Defined.

Lemma user_ids_gallery : NoDup (u_id <$> users_of anonymous).
Proof.
  cbn. apply NoDup_cons. split.
  - intros H. apply list_elem_of_singleton in H. discriminate H.
  - apply NoDup_singleton.
Defined.

Lemma usernames_stay_unique_witness :
  NoDup (u_username <$> users_of
           (snd (handle toy_hash toy_check toy_repr quiet
                   (Register (Some "carol") (Some "pw3")) anonymous))).
Proof.
  apply (usernames_stay_unique toy_hash toy_check toy_repr quiet
           (Register (Some "carol") (Some "pw3")) anonymous).
  exact usernames_gallery.
Defined.

Lemma ids_stay_unique_witness :
  NoDup (u_id <$> users_of
           (snd (handle toy_hash toy_check toy_repr quiet
                   (UploadPhoto (Some new_file)) as_alice)))
  ∧ NoDup (p_id <$> photos_of
             (snd (handle toy_hash toy_check toy_repr quiet
                     (UploadPhoto (Some new_file)) as_alice))).
Proof.
  apply (ids_stay_unique toy_hash toy_check toy_repr quiet
           (UploadPhoto (Some new_file)) as_alice).
  - exact user_ids_gallery.
  - exact unique_ids_gallery.
Defined.

Lemma photos_kept_or_new_of_requester_witness :
  uploaded_photo quiet (str alice_id) alice_id new_file
    "https://res.example/new.png" "new" ∈ photos_of as_alice
  ∨ ∃ f user_id,
      UploadPhoto (Some new_file) = UploadPhoto (Some f)
      ∧ session as_alice !! "user_id" = Some user_id
      ∧ parse user_id = Some alice_id
      ∧ fresh_id = new_object_id quiet
      ∧ "new.png" = filename f.
Proof.
  apply (photos_kept_or_new_of_requester toy_hash toy_check toy_repr quiet
           (UploadPhoto (Some new_file)) as_alice
           (uploaded_photo quiet (str alice_id) alice_id new_file
              "https://res.example/new.png" "new")).
  vm_compute. right. right. left.
Defined.

Lemma reachable_session_shape_witness :
  is_Some (session (snd (handle toy_hash toy_check toy_repr quiet
                           (Login (Some "alice") (Some "pw1")) anonymous))
           !! "user_id")
  ↔ is_Some (session (snd (handle toy_hash toy_check toy_repr quiet
                             (Login (Some "alice") (Some "pw1")) anonymous))
             !! "username").
Proof.
  refine (proj2 (reachable_session_shape toy_hash toy_check toy_repr
    (snd (handle toy_hash toy_check toy_repr quiet
            (Login (Some "alice") (Some "pw1")) anonymous)) _)).
  apply reachable_request. apply reachable_init.
Defined.

Lemma startup_without_database_witness :
  handle toy_hash toy_check toy_repr quiet (Register (Some "carol") (Some "pw3")) offline
  = (mkResponse 500 (Json (message_body false "Database Error")), offline).
Proof.
  refine (proj1 (startup_without_database toy_hash toy_check toy_repr full_environ
                   blobs ∅ offline quiet _) (Some "carol") (Some "pw3")).
  reflexivity.
Defined.
